(** * The authenticated API client and its error classifier

    A shallow embedding of the mobile application's API client
    ([services/api.ts]), of the error classifier
    ([mobile/src/utils/errorHandler.ts]) and of the React Query client
    configuration ([App.tsx] of the mobile and of the web application),
    with the properties of the transport, refresh and retry contract that
    hold of them.

    Conventions of the embedding.
    - A JavaScript [number] holding an HTTP status or a counter is a [Z].
    - A [Record<string, string>] (request headers, AsyncStorage, the
      string-valued fields of a JSON object) is a [gmap string string].
    - [async] code is a tree of awaited events ([Prog]); every [await] of
      the source is one node, so that the cooperative interleaving of
      several calls can be replayed one await at a time. *)

From stdpp Require Import gmap strings list pretty.
From Stdlib Require Import ZArith Ascii.

Local Open Scope string_scope.
Local Open Scope Z_scope.
Local Open Scope list_scope.

(** ** JavaScript values as the client reads them *)

Module Js.

(** [if (s)] on a string: the empty string is falsy. *)
Definition truthy_string (s : string) : bool := negb (String.eqb s "").

(** [if (x)] on a [string | null | undefined]. *)
Definition truthy (x : option string) : bool :=
  match x with
  | Some s => truthy_string s
  | None => false
  end.

(** [hay.includes(needle)]. *)
Fixpoint includes (needle hay : string) : bool :=
  String.prefix needle hay ||
  match hay with
  | EmptyString => false
  | String _ rest => includes needle rest
  end.

(** A parsed body or a payload ([any] in the source).  A number is an
    integer here: fractions and [NaN] are left out.  An object carries
    its string-valued fields, the only ones the client reads. *)
Inductive Value : Type :=
| Null
| Bool (b : bool)
| Number (z : Z)
| Str (s : string)
| Array
| Object (fields : gmap string string).

(** [data ? a : b]. *)
Definition truthy_value (v : Value) : bool :=
  match v with
  | Null => false
  | Bool b => b
  | Number z => negb (z =? 0)
  | Str s => truthy_string s
  | Array | Object _ => true
  end.

(** [a || b] on strings. *)
Definition or_else (a : option string) (b : string) : string :=
  match a with
  | Some s => if truthy_string s then s else b
  | None => b
  end.

End Js.

Import Js.

(** ** Thrown values *)

(** The [ApiError] of [services/api.ts]. *)
Record ApiError : Type := mkApiError {
  message : string;
  status : Z;
  code : option string;
}.

(** What can be thrown: the client's own [ApiError] object literal, or a
    JavaScript [Error] (TypeError, SyntaxError, a rejected storage
    call) with its name and message. *)
Inductive Thrown : Type :=
| ThrownApiError (error : ApiError)
| ThrownError (name msg : string).

(** [error.status] on a thrown value ([undefined] on an [Error]). *)
Definition status_of (t : Thrown) : option Z :=
  match t with
  | ThrownApiError e => Some (status e)
  | ThrownError _ _ => None
  end.

(** [error.message]. *)
Definition message_of (t : Thrown) : string :=
  match t with
  | ThrownApiError e => message e
  | ThrownError _ m => m
  end.

(** [data.name]: a [TypeError] on [null], [undefined] on a primitive or
    an array, the field on an object. *)
Definition prop (v : Value) (name : string) : Thrown + option string :=
  match v with
  | Null =>
      inl (ThrownError "TypeError"
             ("Cannot read property '" +:+ name +:+ "' of null"))
  | Object fields => inr (fields !! name)
  | _ => inr None
  end.

(** ** The error classifier ([errorHandler.ts]) *)

Inductive ErrorType : Type := NETWORK | AUTH | VALIDATION | SERVER | UNKNOWN.

#[global] Instance ErrorType_eq_dec : EqDecision ErrorType.
Proof. solve_decision. Defined.

Record AppError : Type := mkAppError {
  type : ErrorType;
  app_message : string;
  app_code : option string;
  originalError : option Thrown;
  timestamp : Z;
}.

Module ErrorHandler.

(** [handleApiError]; [now] is the value of [new Date()].  The [switch]
    compares [error.status] with each [case] in turn. *)
Definition handleApiError (now : Z) (error : ApiError) : AppError :=
  let '(ty, msg) :=
    if status error =? 400 then
      (VALIDATION,
       or_else (Some (message error))
         "Invalid request. Please check your input.")
    else if status error =? 401 then
      (AUTH, "Session expired. Please log in again.")
    else if status error =? 403 then
      (AUTH, "Access denied. You don't have permission for this action.")
    else if status error =? 404 then
      (SERVER, "The requested resource was not found.")
    else if status error =? 429 then
      (SERVER, "Too many requests. Please try again later.")
    else if status error =? 500 then
      (SERVER, "Server error. Please try again later.")
    else if 500 <=? status error then
      (SERVER, "Server error. Please try again later.")
    else
      (UNKNOWN,
       or_else (Some (message error)) "An unexpected error occurred.") in
  {| type := ty;
     app_message := msg;
     app_code := code error;
     originalError := Some (ThrownApiError error);
     timestamp := now |}.

Definition handleNetworkError (now : Z) (error : Thrown) : AppError :=
  {| type := NETWORK;
     app_message := "Network error. Please check your internet connection.";
     app_code := None;
     originalError := Some error;
     timestamp := now |}.

Definition handleGenericError (now : Z) (error : Thrown) : AppError :=
  {| type := UNKNOWN;
     app_message :=
       or_else (Some (message_of error)) "An unexpected error occurred.";
     app_code := None;
     originalError := Some error;
     timestamp := now |}.

(** [isNetworkError] on a thrown value, which has no [type] field. *)
Definition isNetworkError (error : Thrown) : bool :=
  includes "Network" (message_of error) ||
  includes "timeout" (message_of error) ||
  includes "connection" (message_of error).

(** [isAuthError] on a thrown value. *)
Definition isAuthError (error : Thrown) : bool :=
  match status_of error with
  | Some s => (s =? 401) || (s =? 403)
  | None => false
  end.

(** [shouldRetry(error, retryCount)]; [undefined >= 500] is false. *)
Definition shouldRetry (error : AppError) (retryCount : Z) : bool :=
  let maxRetries := 3 in
  if maxRetries <=? retryCount then false
  else
    match type error with
    | NETWORK => true
    | SERVER =>
        match originalError error ≫= status_of with
        | Some s => 500 <=? s
        | None => false
        end
    | _ => false
    end.

(** The [handleError] of [useErrorHandler], without its logging and its
    toast.  [if (error.status)] is false when the thrown value has no
    status ([undefined]) and when the status is [0]. *)
Definition handleError (now : Z) (error : Thrown) : AppError :=
  match error with
  | ThrownApiError e =>
      if negb (status e =? 0) then handleApiError now e
      else if isNetworkError error then handleNetworkError now error
      else handleGenericError now error
  | ThrownError _ _ =>
      if isNetworkError error then handleNetworkError now error
      else handleGenericError now error
  end.

End ErrorHandler.

Import ErrorHandler.

(** ** Requests, responses and the awaited events *)

(** The body handed to [fetch]: [JSON.stringify(value)] or a [FormData]. *)
Inductive Body : Type :=
| JSON_stringify (value : Value)
| FormData (form : string).

Record Request : Type := mkRequest {
  url : string;
  method : string;
  headers : gmap string string;
  body : option Body;
}.

(** A [Response] as the client reads it: the status, the [content-type]
    header, the body as text and what [JSON.parse] makes of that text
    (the message of its [SyntaxError], or the value). *)
Record Response : Type := mkResponse {
  resp_status : Z;
  content_type : option string;
  body_text : string;
  body_json : string + Value;
}.

(** [response.ok]. *)
Definition ok (response : Response) : bool :=
  (200 <=? resp_status response) && (resp_status response <=? 299).

(** What the client awaits.  The index is the type of the value a
    fulfilled promise carries. *)
Inductive Event : Type -> Type :=
| AsyncStorage_getItem (key : string) : Event (option string)
| AsyncStorage_setItem (key : string) (value : option string) : Event unit
| AsyncStorage_multiRemove (keys : list string) : Event unit
| fetch (request : Request) : Event Response
| Response_json (response : Response) : Event Value
| Response_text (response : Response) : Event string.

(** An [async] function body: it returns, throws, or awaits an event and
    goes on with the promise's settlement (rejected or fulfilled). *)
Inductive Prog (A : Type) : Type :=
| Ret (a : A)
| Throw (error : Thrown)
| Await {X : Type} (event : Event X) (k : Thrown + X -> Prog A).

Arguments Ret {A} a.
Arguments Throw {A} error.
Arguments Await {A X} event k.

(** [await event]: a rejection is thrown at the await. *)
Definition await {X : Type} (event : Event X) : Prog X :=
  Await event (fun settled =>
    match settled with
    | inl error => Throw error
    | inr x => Ret x
    end).

Fixpoint bind {A B : Type} (p : Prog A) (f : A -> Prog B) : Prog B :=
  match p with
  | Ret a => f a
  | Throw error => Throw error
  | Await event k => Await event (fun settled => bind (k settled) f)
  end.

(** [try { p } catch (error) { handler }]. *)
Fixpoint try_catch {A : Type} (p : Prog A) (handler : Thrown -> Prog A)
  : Prog A :=
  match p with
  | Ret a => Ret a
  | Throw error => handler error
  | Await event k => Await event (fun settled => try_catch (k settled) handler)
  end.

(** A synchronous expression that may throw. *)
Definition lift {A : Type} (r : Thrown + A) : Prog A :=
  match r with
  | inl error => Throw error
  | inr a => Ret a
  end.

Declare Scope prog_scope.
Delimit Scope prog_scope with prog.
Notation "x <- p ;; q" := (bind p (fun x => q))
  (at level 100, p at next level, right associativity) : prog_scope.
Notation "p ;; q" := (bind p (fun _ => q))
  (at level 100, right associativity) : prog_scope.
Local Open Scope prog_scope.

(** ** The world the client runs in *)

(** The device's AsyncStorage and the requests sent so far, oldest first. *)
Record State : Type := mkState {
  storage : gmap string string;
  sent : list Request;
}.

(** The network: from the requests already sent and the one being sent to
    a rejection of [fetch] (no response) or a response.  The settlement
    of a request is fixed when the request goes out. *)
Definition Server : Type := list Request -> Request -> Thrown + Response.

(** What [AsyncStorage.getItem] resolves to: the library answers
    [value ? value : null], so a key that is missing and a key that holds
    the empty string both read as [null]. *)
Definition read_item (store : gmap string string) (key : string)
  : option string :=
  match store !! key with
  | Some value => if truthy_string value then Some value else None
  | None => None
  end.

(** The settlement of one awaited event on a device whose store answers.
    [setItem] rejects a value that is not a string. *)
Definition perform (server : Server) (st : State) {X : Type} (event : Event X)
  : State * (Thrown + X) :=
  match event in Event X return State * (Thrown + X) with
  | AsyncStorage_getItem key => (st, inr (read_item (storage st) key))
  | AsyncStorage_setItem key (Some value) =>
      ({| storage := <[key := value]> (storage st); sent := sent st |}, inr tt)
  | AsyncStorage_setItem key None =>
      (st, inl (ThrownError "Error"
                  "[AsyncStorage] Passing null/undefined as value is not supported."))
  | AsyncStorage_multiRemove keys =>
      ({| storage := foldr delete (storage st) keys; sent := sent st |}, inr tt)
  | fetch request =>
      ({| storage := storage st; sent := sent st ++ [request] |},
       server (sent st) request)
  | Response_json response =>
      (st, match body_json response with
           | inl msg => inl (ThrownError "SyntaxError" msg)
           | inr value => inr value
           end)
  | Response_text response => (st, inr (body_text response))
  end.

(** One call run to its end, with nothing else interleaved. *)
Fixpoint run {A : Type} (server : Server) (st : State) (p : Prog A)
  : State * (Thrown + A) :=
  match p with
  | Ret a => (st, inr a)
  | Throw error => (st, inl error)
  | Await event k =>
      let '(st', settled) := perform server st event in
      run server st' (k settled)
  end.

(** A device whose store may fail: [faults _ event] is the error with
    which a call of AsyncStorage rejects, when it does.  A call that
    rejects leaves the state as it was; everything else settles as in
    [perform]. *)
Definition Faults : Type := forall X : Type, Event X -> option Thrown.

Definition is_storage_call {X : Type} (event : Event X) : bool :=
  match event with
  | AsyncStorage_getItem _ | AsyncStorage_setItem _ _
  | AsyncStorage_multiRemove _ => true
  | _ => false
  end.

Definition perform_on (faults : Faults) (server : Server) (st : State)
  {X : Type} (event : Event X) : State * (Thrown + X) :=
  if is_storage_call event then
    match faults X event with
    | Some error => (st, inl error)
    | None => perform server st event
    end
  else perform server st event.

Fixpoint run_on {A : Type} (faults : Faults) (server : Server) (st : State)
  (p : Prog A) : State * (Thrown + A) :=
  match p with
  | Ret a => (st, inr a)
  | Throw error => (st, inl error)
  | Await event k =>
      let '(st', settled) := perform_on faults server st event in
      run_on faults server st' (k settled)
  end.

(** Several calls in flight: the scheduler resumes one of them at a time,
    up to its next await. *)
Definition resume {A : Type} (server : Server) (st : State) (p : Prog A)
  : State * Prog A :=
  match p with
  | Await event k =>
      let '(st', settled) := perform server st event in (st', k settled)
  | _ => (st, p)
  end.

Fixpoint interleave {A : Type} (server : Server) (schedule : list nat)
  (st : State) (pool : list (Prog A)) : State * list (Prog A) :=
  match schedule with
  | [] => (st, pool)
  | i :: rest =>
      match pool !! i with
      | Some p =>
          let '(st', p') := resume server st p in
          interleave server rest st' (<[i := p']> pool)
      | None => interleave server rest st pool
      end
  end.

(** A call has settled when it has returned or thrown. *)
Definition settled {A : Type} (p : Prog A) : option (Thrown + A) :=
  match p with
  | Ret a => Some (inr a)
  | Throw error => Some (inl error)
  | Await _ _ => None
  end.

(** ** The API client ([services/api.ts]) *)

Record ApiResponse : Type := mkApiResponse {
  data : Value;
  api_message : option string;
  api_status : Z;
}.

Module ApiClient.
Section WithConfig.

(** [Config.API_URL], and the serializer [URLSearchParams] applies to a
    name or a value. *)
Variable baseURL : string.
Variable urlencode : string -> string.

Definition defaultHeaders : gmap string string :=
  {[ "Content-Type" := "application/json"; "Accept" := "application/json" ]}.

Definition refresh_url : string := baseURL +:+ "/api/v1/auth/refresh".

Definition credentials : list string :=
  ["access_token"; "refresh_token"; "user"].

(** The [console.error] of the [catch] is not modelled. *)
Definition getAuthHeaders : Prog (gmap string string) :=
  try_catch
    (token <- await (AsyncStorage_getItem "access_token");;
     match token with
     | Some t =>
         if truthy_string t
         then Ret (<["Authorization" := "Bearer " +:+ t]> defaultHeaders)
         else Ret defaultHeaders
     | None => Ret defaultHeaders
     end)
    (fun _ => Ret defaultHeaders).

(** The request [handleTokenExpiration] hands to [fetch]. *)
Definition refresh_request (refreshToken : string) : Request :=
  {| url := refresh_url;
     method := "POST";
     headers := defaultHeaders;
     body := Some (JSON_stringify
                     (Object {[ "refresh_token" := refreshToken ]})) |}.

Definition handleTokenExpiration : Prog unit :=
  try_catch
    (refreshToken <- await (AsyncStorage_getItem "refresh_token");;
     match refreshToken with
     | Some rt =>
         if truthy_string rt then
           response <- await (fetch (refresh_request rt));;
           if ok response then
             data <- await (Response_json response);;
             access_token <- lift (prop data "access_token");;
             await (AsyncStorage_setItem "access_token" access_token);;
             refresh_token <- lift (prop data "refresh_token");;
             if truthy refresh_token
             then await (AsyncStorage_setItem "refresh_token" refresh_token)
             else Ret tt
           else
             await (AsyncStorage_multiRemove credentials)
         else Ret tt
     | None => Ret tt
     end)
    (fun _ => await (AsyncStorage_multiRemove credentials)).

Definition is_json (contentType : option string) : bool :=
  match contentType with
  | Some ct => includes "application/json" ct
  | None => false
  end.

Definition handleResponse (response : Response) : Prog ApiResponse :=
  let contentType := content_type response in
  data <- (if is_json contentType
           then await (Response_json response)
           else (text <- await (Response_text response);; Ret (Str text)));;
  if negb (ok response) then
    message <- lift (prop data "message");;
    code <- lift (prop data "code");;
    let error :=
      {| message :=
           or_else message
             ("HTTP error! status: " +:+ pretty (resp_status response));
         status := resp_status response;
         code := code |} in
    (if resp_status response =? 401 then handleTokenExpiration else Ret tt);;
    Throw (ThrownApiError error)
  else
    message <- lift (prop data "message");;
    Ret {| data := data;
           api_message := message;
           api_status := resp_status response |}.

(** [searchParams.toString()] after the [forEach] that skips the
    [undefined] and [null] values ([None]) and appends [String(value)]. *)
Definition searchParams (params : list (string * option string)) : string :=
  String.concat "&"
    (omap (fun '(key, value) =>
             (fun v => urlencode key +:+ "=" +:+ urlencode v) <$> value)
          params).

Definition get (endpoint : string)
  (params : option (list (string * option string))) : Prog ApiResponse :=
  headers <- getAuthHeaders;;
  let url := baseURL +:+ endpoint in
  let url :=
    match params with
    | Some ps => url +:+ "?" +:+ searchParams ps
    | None => url
    end in
  response <- await (fetch
    {| url := url; method := "GET"; headers := headers; body := None |});;
  handleResponse response.

(** [data ? JSON.stringify(data) : undefined]. *)
Definition stringify_if_truthy (data : option Value) : option Body :=
  match data with
  | Some v => if truthy_value v then Some (JSON_stringify v) else None
  | None => None
  end.

Definition post (endpoint : string) (data : option Value)
  : Prog ApiResponse :=
  headers <- getAuthHeaders;;
  response <- await (fetch
    {| url := baseURL +:+ endpoint; method := "POST"; headers := headers;
       body := stringify_if_truthy data |});;
  handleResponse response.

Definition put (endpoint : string) (data : option Value)
  : Prog ApiResponse :=
  headers <- getAuthHeaders;;
  response <- await (fetch
    {| url := baseURL +:+ endpoint; method := "PUT"; headers := headers;
       body := stringify_if_truthy data |});;
  handleResponse response.

Definition patch (endpoint : string) (data : option Value)
  : Prog ApiResponse :=
  headers <- getAuthHeaders;;
  response <- await (fetch
    {| url := baseURL +:+ endpoint; method := "PATCH"; headers := headers;
       body := stringify_if_truthy data |});;
  handleResponse response.

Definition delete (endpoint : string) : Prog ApiResponse :=
  headers <- getAuthHeaders;;
  response <- await (fetch
    {| url := baseURL +:+ endpoint; method := "DELETE"; headers := headers;
       body := None |});;
  handleResponse response.

Definition upload (endpoint : string) (formData : string)
  : Prog ApiResponse :=
  token <- await (AsyncStorage_getItem "access_token");;
  let headers : gmap string string := {[ "Accept" := "application/json" ]} in
  let headers :=
    match token with
    | Some t =>
        if truthy_string t
        then <["Authorization" := "Bearer " +:+ t]> headers
        else headers
    | None => headers
    end in
  response <- await (fetch
    {| url := baseURL +:+ endpoint; method := "POST"; headers := headers;
       body := Some (FormData formData) |});;
  handleResponse response.

(** The public surface of the client: one constructor per method. *)
Inductive Call : Type :=
| Get (endpoint : string) (params : option (list (string * option string)))
| Post (endpoint : string) (data : option Value)
| Put (endpoint : string) (data : option Value)
| Patch (endpoint : string) (data : option Value)
| Delete (endpoint : string)
| Upload (endpoint : string) (formData : string).

Definition call (c : Call) : Prog ApiResponse :=
  match c with
  | Get endpoint params => get endpoint params
  | Post endpoint data => post endpoint data
  | Put endpoint data => put endpoint data
  | Patch endpoint data => patch endpoint data
  | Delete endpoint => delete endpoint
  | Upload endpoint formData => upload endpoint formData
  end.

End WithConfig.
End ApiClient.

(** ** The query layer: React Query and its configuration ([App.tsx]) *)

Module ReactQuery.

(** The [retry] option: [boolean | number | (failureCount, error) =>
    boolean]. *)
Inductive RetryValue : Type :=
| RetryBool (b : bool)
| RetryNumber (n : nat)
| RetryFn (f : nat -> Thrown -> bool).

(** The options the two applications set, each of them optional. *)
Record Options : Type := mkOptions {
  retry : option RetryValue;
  retryDelay : option (nat -> Z);
  staleTime : option Z;
  cacheTime : option Z;
  refetchOnWindowFocus : option bool;
}.

Record DefaultOptions : Type := mkDefaultOptions {
  queries : Options;
  mutations : Options;
}.


Definition mutation_retry (o : Options) : RetryValue :=
  default (RetryNumber 0) (retry o).

(** The library's decision after a failed attempt:
    [retry === true || (typeof retry === 'number' && failureCount < retry)
     || (typeof retry === 'function' && retry(failureCount, error))]. *)
Definition retries (r : RetryValue) (failureCount : nat) (error : Thrown)
  : bool :=
  match r with
  | RetryBool b => b
  | RetryNumber n => (failureCount <? n)%nat
  | RetryFn f => f failureCount error
  end.

(** The retry loop of React Query, a dependency of the two applications
    and no part of the repository; it is written after the library's
    contract for the [retry] option.  [fn i] is the settlement of the
    [i]-th invocation of the query function (counting from [0]); the
    loop returns the final settlement and the number of invocations.
    [retry: true] retries for ever, hence the fuel. *)
Fixpoint retryer {A : Type} (fuel : nat) (r : RetryValue)
  (fn : nat -> Thrown + A) (failureCount : nat)
  : option ((Thrown + A) * nat) :=
  match fuel with
  | O => None
  | S fuel' =>
      match fn failureCount with
      | inr a => Some (inr a, S failureCount)
      | inl error =>
          if retries r failureCount error
          then retryer fuel' r fn (S failureCount)
          else Some (inl error, S failureCount)
      end
  end.

End ReactQuery.

Import ReactQuery.

(** [(attemptIndex) => Math.min(1000 * 2 ** attemptIndex, 30000)]. *)
Definition backoff (attemptIndex : nat) : Z :=
  Z.min (1000 * 2 ^ Z.of_nat attemptIndex) 30000.

Module MobileApp.

Definition queryClient : DefaultOptions :=
  {| queries :=
       {| retry := Some (RetryNumber 3);
          retryDelay := Some backoff;
          staleTime := Some (5 * 60 * 1000);
          cacheTime := Some (10 * 60 * 1000);
          refetchOnWindowFocus := Some false |};
     mutations :=
       {| retry := Some (RetryNumber 1);
          retryDelay := None;
          staleTime := None;
          cacheTime := None;
          refetchOnWindowFocus := None |} |}.

End MobileApp.

Module WebApp.

Definition queryClient : DefaultOptions :=
  {| queries :=
       {| retry := Some (RetryNumber 3);
          retryDelay := Some backoff;
          staleTime := Some (5 * 60 * 1000);
          cacheTime := Some (10 * 60 * 1000);
          refetchOnWindowFocus := Some false |};
     mutations :=
       {| retry := Some (RetryNumber 1);
          retryDelay := None;
          staleTime := None;
          cacheTime := None;
          refetchOnWindowFocus := None |} |}.

End WebApp.

(** [ErrorHandler.shouldRetry] as a [retry] function of the query layer:
    the thrown value is classified by [handleError] first. *)
Definition shouldRetry_policy (now : Z) : RetryValue :=
  RetryFn (fun failureCount error =>
             shouldRetry (handleError now error) (Z.of_nat failureCount)).

(** The settlements of a query function that issues the same call of the
    client again and again, with nothing else touching the device. *)
Fixpoint replay {A : Type} (server : Server) (st : State) (p : Prog A)
  (i : nat) : Thrown + A :=
  match i with
  | O => snd (run server st p)
  | S j => replay server (fst (run server st p)) p j
  end.

(** ** Scenarios *)

Module Scenario.

Definition API_URL : string := "http://localhost:8000".

(** [URLSearchParams] on names and values without reserved characters. *)
Definition plain (s : string) : string := s.

Definition json_response (status : Z) (fields : gmap string string)
  : Response :=
  {| resp_status := status;
     content_type := Some "application/json";
     body_text := "";
     body_json := inr (Object fields) |}.

Definition stored (access refresh : string) : State :=
  {| storage := {[ "access_token" := access; "refresh_token" := refresh ]};
     sent := [] |}.

(** A backend on which the access token [T1] has expired: it refreshes
    to [T2] and serves only requests that carry [Bearer T2]. *)
Definition expired_T1 : Server := fun _ request =>
  if String.eqb (url request) (ApiClient.refresh_url API_URL) then
    inr (json_response 200 {[ "access_token" := "T2" ]})
  else if bool_decide (headers request !! "Authorization" = Some "Bearer T2")
  then inr (json_response 200 {[ "message" := "accounts" ]})
  else inr (json_response 401 {[ "message" := "token expired" ]}).


(** A backend that answers every request with the same status. *)
Definition always (status : Z) : Server := fun _ _ =>
  inr (json_response status ∅).

Definition get_accounts : Prog ApiResponse :=
  ApiClient.get API_URL plain "/accounts" None.

(** The request [get_accounts] sends when [token] is stored. *)
Definition accounts_request (token : string) : Request :=
  {| url := "http://localhost:8000/accounts";
     method := "GET";
     headers :=
       {[ "Content-Type" := "application/json";
          "Accept" := "application/json";
          "Authorization" := "Bearer " +:+ token ]};
     body := None |}.

Definition get_transactions : Prog ApiResponse :=
  ApiClient.get API_URL plain "/transactions" None.

End Scenario.

(** ** The analytics service ([services/analytics.ts]) *)

Record CategoryShare : Type := mkCategoryShare {
  category : string;
  amount : Z;
  percentage : Z;
}.

Record MonthFlow : Type := mkMonthFlow {
  flow_month : string;
  income : Z;
  expenses : Z;
}.

(** The [AnalyticsData] of [hooks/useAnalytics.ts]. *)
Record AnalyticsData : Type := mkAnalyticsData {
  monthlyIncome : Z;
  monthlyExpenses : Z;
  monthlyChange : Z;
  monthlyChangePercent : Z;
  expenseChange : Z;
  topCategories : list CategoryShare;
  incomeVsExpenses : list MonthFlow;
}.

(** What a method of the service returns: [response.data] as it came, or
    the literal of its [catch]. *)
Inductive Fetched (F : Type) : Type :=
| Data (data : Value)
| Fallback (literal : F).

Arguments Data {F} data.
Arguments Fallback {F} literal.

Module AnalyticsService.
Section WithConfig.

(** The service owns a client of its own, built on the same
    [Config.API_URL]; the [console.error] of each [catch] is not
    modelled. *)
Variable baseURL : string.
Variable urlencode : string -> string.

Let api_get := ApiClient.get baseURL urlencode.

Definition getAnalytics (timeframe : string) : Prog (Fetched AnalyticsData) :=
  try_catch
    (response <- api_get
       ("/api/v1/transactions/analysis?timeframe=" +:+ timeframe) None;;
     Ret (Data (data response)))
    (fun _ =>
       Ret (Fallback
              {| monthlyIncome := 0;
                 monthlyExpenses := 0;
                 monthlyChange := 0;
                 monthlyChangePercent := 0;
                 expenseChange := 0;
                 topCategories := [];
                 incomeVsExpenses := [] |})).

Definition getSpendingTrends (period : string) : Prog (Fetched (list Value)) :=
  try_catch
    (response <- api_get
       ("/api/v1/transactions/spending-trends?period=" +:+ period) None;;
     Ret (Data (data response)))
    (fun _ => Ret (Fallback [])).

Definition getNetWorthHistory (period : string)
  : Prog (Fetched (list Value)) :=
  try_catch
    (response <- api_get
       ("/api/v1/accounts/net-worth-history?period=" +:+ period) None;;
     Ret (Data (data response)))
    (fun _ => Ret (Fallback [])).

Definition getCategoryBreakdown (timeframe : string)
  : Prog (Fetched (list Value)) :=
  try_catch
    (response <- api_get
       ("/api/v1/transactions/category-breakdown?timeframe=" +:+ timeframe)
       None;;
     Ret (Data (data response)))
    (fun _ => Ret (Fallback [])).

Definition getBudgetPerformance : Prog (Fetched (list Value)) :=
  try_catch
    (response <- api_get "/api/v1/budgets/performance" None;;
     Ret (Data (data response)))
    (fun _ => Ret (Fallback [])).

Definition getGoalProgress : Prog (Fetched (list Value)) :=
  try_catch
    (response <- api_get "/api/v1/goals/progress" None;;
     Ret (Data (data response)))
    (fun _ => Ret (Fallback [])).

End WithConfig.
End AnalyticsService.

(** ** The application state listener of the mobile [App.tsx] *)

(** [appState.match(/inactive|background/)]: the pattern is not anchored,
    so it matches when either word occurs in the string. *)
Definition matches_inactive_or_background (appState : string) : bool :=
  includes "inactive" appState || includes "background" appState.

(** [handleAppStateChange]: whether [queryClient.invalidateQueries()] is
    called, and the state handed to [setAppState]. *)
Definition handleAppStateChange (appState nextAppState : string)
  : bool * string :=
  (matches_inactive_or_background appState && String.eqb nextAppState "active",
   nextAppState).

(** ** Vocabulary of the properties *)

(** What [handleResponse] reads from a response before it looks at the
    status: the parsed JSON when the content type says JSON, the text
    otherwise; a body that does not parse is a [SyntaxError]. *)
Definition read_body (response : Response) : Thrown + Value :=
  if ApiClient.is_json (content_type response) then
    match body_json response with
    | inl msg => inl (ThrownError "SyntaxError" msg)
    | inr value => inr value
    end
  else inr (Str (body_text response)).

(** The state once [request] has gone out. *)
Definition sending (st : State) (request : Request) : State :=
  {| storage := storage st; sent := sent st ++ [request] |}.

(** The state once [request] has gone out and the credentials have been
    removed. *)
Definition signed_out (st : State) (request : Request) : State :=
  {| storage := foldr delete (storage st) ApiClient.credentials;
     sent := sent st ++ [request] |}.

(** The refresh endpoint rejects (a status outside 200-299), errors (no
    response) or answers with a body that is no JSON. *)
Definition refresh_fails (outcome : Thrown + Response) : Prop :=
  match outcome with
  | inl _ => True
  | inr response =>
      ok response = false \/ exists msg, body_json response = inl msg
  end.

(** The refresh token a successful refresh leaves in the store: the
    rotated one when the answer carries a non-empty one. *)
Definition rotate (rotated : option string) (store : gmap string string)
  : gmap string string :=
  match rotated with
  | Some r => if truthy_string r then <["refresh_token" := r]> store else store
  | None => store
  end.

(** The value of the [Authorization] header for a stored access token. *)
Definition bearer (token : option string) : option string :=
  match token with
  | Some t => if truthy_string t then Some ("Bearer " +:+ t) else None
  | None => None
  end.

(** The request a call puts on the wire first, read off the log of its
    run. *)
Definition first_request {A : Type} (server : Server) (st : State)
  (p : Prog A) : option Request :=
  sent (fst (run server st p)) !! length (sent st).

(** The number of requests to the refresh endpoint in a log. *)
Definition refresh_calls (baseURL : string) (log : list Request) : nat :=
  length (filter (fun request => url request = ApiClient.refresh_url baseURL)
            log).

(** The cost of an event in refresh calls. *)
Definition refresh_cost (baseURL : string) {X : Type} (event : Event X) : nat :=
  match event with
  | fetch request =>
      if decide (url request = ApiClient.refresh_url baseURL) then 1 else 0
  | _ => 0
  end%nat.

(** [p] issues at most [n] refresh calls, however its awaits settle. *)
Fixpoint refresh_budget (baseURL : string) {A : Type} (n : nat) (p : Prog A)
  : Prop :=
  match p with
  | Ret _ | Throw _ => True
  | Await event k =>
      (refresh_cost baseURL event <= n)%nat /\
      forall outcome,
        refresh_budget baseURL (n - refresh_cost baseURL event) (k outcome)
  end.

(** The endpoint a call names. *)
Definition endpoint_of (c : ApiClient.Call) : string :=
  match c with
  | ApiClient.Get endpoint _ | ApiClient.Post endpoint _
  | ApiClient.Put endpoint _ | ApiClient.Patch endpoint _
  | ApiClient.Delete endpoint | ApiClient.Upload endpoint _ => endpoint
  end.

(** * Properties *)

(** ** The classifier *)

(** Case analysis on the integer comparisons of a goal. *)
Ltac compare_Z :=
  repeat match goal with
    | |- context [?a =? ?b] => destruct (Z.eqb_spec a b)
    | |- context [?a <=? ?b] => destruct (Z.leb_spec a b)
    | |- context [?a <? ?b] => destruct (Z.ltb_spec a b)
    end;
  simpl; try reflexivity; try lia.

Section Classifier.

Variable now : Z.

Lemma handleApiError_type (error : ApiError) :
  type (handleApiError now error) =
    if status error =? 400 then VALIDATION
    else if (status error =? 401) || (status error =? 403) then AUTH
    else if (status error =? 404) || (status error =? 429)
            || (500 <=? status error) then SERVER
    else UNKNOWN.
Proof.
  unfold handleApiError. compare_Z.
Qed.

Lemma handleApiError_original (error : ApiError) :
  originalError (handleApiError now error) = Some (ThrownApiError error).
Proof. unfold handleApiError. by case_match. Qed.


Lemma shouldRetry_api (error : ApiError) (retryCount : Z) :
  shouldRetry (handleApiError now error) retryCount =
    (retryCount <? 3) && (500 <=? status error).
Proof.
  unfold shouldRetry.
  rewrite handleApiError_type, handleApiError_original. simpl.
  compare_Z.
Qed.

End Classifier.

(** C3 (as amended): a failure with HTTP status 429 is classified as a
    server error, and the retry decision function answers [false] for it
    at every retry count: it retries a server error only when the status
    is at least 500. *)
Theorem too_many_requests_not_retried
  (now : Z) (msg : string) (c : option string) (retryCount : Z) :
  let error :=
    handleApiError now {| message := msg; status := 429; code := c |} in
  type error = SERVER /\ shouldRetry error retryCount = false.
Proof.
  cbv zeta. split.
  - by rewrite handleApiError_type.
  - rewrite shouldRetry_api. simpl. apply andb_false_r.
Qed.

(** C3 (as stated) fails: on a first failure with status 429, below the
    retry limit of 3, the retry decision function does not answer [true]. *)
Lemma too_many_requests_retry_refuted :
  let error :=
    handleApiError 0
      {| message := "Too Many Requests"; status := 429; code := None |} in
  type error = SERVER /\ 0 < 3 /\ shouldRetry error 0 <> true.
Proof. vm_compute. repeat split; congruence. Qed.

(** C5 (as amended): 400 is a validation error, 401 and 403 are
    authentication errors, 404, 429 and every status from 500 upwards (not
    only up to 599) are server errors, every other status is an unknown
    error, and a transport failure is a network error. *)
Theorem classification_by_status (now : Z) (error : ApiError) :
  (status error = 400 -> type (handleApiError now error) = VALIDATION) /\
  (status error = 401 \/ status error = 403 ->
   type (handleApiError now error) = AUTH) /\
  (status error = 404 \/ status error = 429 \/ 500 <= status error ->
   type (handleApiError now error) = SERVER) /\
  (status error < 500 ->
   status error ∉ [400; 401; 403; 404; 429] ->
   type (handleApiError now error) = UNKNOWN) /\
  (forall failure, type (handleNetworkError now failure) = NETWORK).
Proof.
  rewrite handleApiError_type. repeat split.
  - intros ->. reflexivity.
  - intros [-> | ->]; reflexivity.
  - intros H. compare_Z.
  - intros H Hnot. rewrite !not_elem_of_cons in Hnot. compare_Z.
Qed.

Lemma classification_by_status_witness :
  type (handleApiError 0
          {| message := "Service Unavailable"; status := 503; code := None |})
  = SERVER.
Proof.
  apply (proj1 (proj2 (proj2
    (classification_by_status 0
       {| message := "Service Unavailable"; status := 503; code := None |})))).
  right. right. simpl. lia.
Defined.

(** C5 (as stated) fails: the status 600 lies outside 500-599 and is none
    of 400, 401, 403, 404, 429, yet it is classified as a server error and
    not as an unknown error. *)
Lemma status_600_is_server_error :
  let error := {| message := "invalid"; status := 600; code := None |} in
  (~ (500 <= status error <= 599)) /\
  (status error ∉ [400; 401; 403; 404; 429]) /\
  type (handleApiError 0 error) = SERVER /\
  type (handleApiError 0 error) <> UNKNOWN.
Proof.
  simpl. repeat split.
  - lia.
  - rewrite !not_elem_of_cons. repeat split; try lia. apply not_elem_of_nil.
  - vm_compute. congruence.
Qed.

(** ** The retry loop of the query layer *)

Section Retryer.

Context {A : Type}.
Implicit Types (fn : nat -> Thrown + A) (r : RetryValue).

Local Open Scope nat_scope.

(** The loop counts one invocation per failure and one more. *)
Lemma retryer_attempts fuel r fn failureCount out attempts :
  retryer fuel r fn failureCount = Some (out, attempts) ->
  failureCount < attempts /\
  (forall i, failureCount <= i -> S i < attempts ->
             exists error, fn i = inl error /\ retries r i error = true) /\
  out = fn (attempts - 1).
Proof.
  revert failureCount.
  induction fuel as [|fuel IH]; intros failureCount; simpl; [done|].
  destruct (fn failureCount) as [error|a] eqn:Hfn.
  - destruct (retries r failureCount error) eqn:Hretry.
    + intros H. apply IH in H as (Hlt & Hbefore & Hout).
      split; [lia|]. split; [|done].
      intros i Hle Hi. destruct (decide (i = failureCount)) as [->|Hne].
      * eauto.
      * apply Hbefore; lia.
    + intros [= <- <-]. split; [lia|]. split; [intros; lia|].
      by replace (S failureCount - 1) with failureCount by lia.
  - intros [= <- <-]. split; [lia|]. split; [intros; lia|].
    by replace (S failureCount - 1) with failureCount by lia.
Qed.

(** With a numeric [retry] the loop ends, after at most [n + 1]
    invocations in all. *)
Lemma retryer_number_terminates n fn fuel failureCount :
  0 < fuel -> n + 1 <= fuel + failureCount ->
  exists out attempts,
    retryer fuel (RetryNumber n) fn failureCount = Some (out, attempts) /\
    attempts <= Nat.max (n + 1) (failureCount + 1).
Proof.
  revert failureCount.
  induction fuel as [|fuel IH]; intros failureCount Hpos Hfuel; [lia|].
  simpl. destruct (fn failureCount) as [error|a].
  - destruct (Nat.ltb_spec failureCount n) as [Hlt|Hge].
    + destruct (IH (S failureCount)) as (out & attempts & -> & Hle);
        [lia | lia |].
      exists out, attempts. split; [done | lia].
    + eexists _, _. split; [done | lia].
  - eexists _, _. split; [done | lia].
Qed.


End Retryer.




(** C9: a mutation run under the default options of either application
    ([mutations: { retry: 1 }]) ends after one or two attempts in all,
    that is, it is retried at most once. *)
Theorem mutation_retried_at_most_once {A : Type}
  (fn : nat -> Thrown + A) (fuel : nat) :
  forall client, client ∈ [MobileApp.queryClient; WebApp.queryClient] ->
  exists out attempts,
    retryer (2 + fuel) (mutation_retry (mutations client)) fn 0
    = Some (out, attempts) /\
    (1 <= attempts <= 2)%nat.
Proof.
  intros client Hclient.
  assert (mutation_retry (mutations client) = RetryNumber 1) as ->.
  { rewrite !elem_of_cons in Hclient.
    destruct Hclient as [-> | [-> | Hnil]]; [done | done |].
    by apply elem_of_nil in Hnil. }
  destruct (retryer_number_terminates 1 fn (2 + fuel) 0%nat)
    as (out & attempts & Hrun & Hle); [lia | lia |].
  exists out, attempts. split; [done|].
  apply retryer_attempts in Hrun as (Hpos & _ & _). lia.
Qed.

Lemma mutation_retried_at_most_once_witness :
  exists out attempts,
    retryer (2 + 0)
      (mutation_retry (mutations WebApp.queryClient))
      (fun _ => inl (ThrownError "TypeError" "Network request failed")
                : Thrown + ApiResponse) 0
    = Some (out, attempts) /\
    (1 <= attempts <= 2)%nat.
Proof.
  apply (mutation_retried_at_most_once _ 0%nat WebApp.queryClient).
  rewrite !elem_of_cons. right. left. reflexivity.
Defined.

(** ** Running a call: the equations of [run] *)

Section Run.

Variable server : Server.

Lemma run_bind {A B : Type} (p : Prog A) (f : A -> Prog B) (st : State) :
  run server st (bind p f) =
    match run server st p with
    | (st', inr a) => run server st' (f a)
    | (st', inl error) => (st', inl error)
    end.
Proof.
  revert st. induction p as [a|error|X event k IH]; intros st; simpl.
  - reflexivity.
  - reflexivity.
  - destruct (perform server st event) as [st' outcome]. apply IH.
Qed.

Lemma run_try_catch {A : Type} (p : Prog A) (handler : Thrown -> Prog A)
  (st : State) :
  run server st (try_catch p handler) =
    match run server st p with
    | (st', inr a) => (st', inr a)
    | (st', inl error) => run server st' (handler error)
    end.
Proof.
  revert st. induction p as [a|error|X event k IH]; intros st; simpl.
  - reflexivity.
  - reflexivity.
  - destruct (perform server st event) as [st' outcome]. apply IH.
Qed.

Lemma run_await {X : Type} (event : Event X) (st : State) :
  run server st (await event) = perform server st event.
Proof.
  unfold await. simpl.
  by destruct (perform server st event) as [st' [error|x]].
Qed.

Lemma run_lift {A : Type} (r : Thrown + A) (st : State) :
  run server st (lift r) = (st, r).
Proof. by destruct r. Qed.

(** An event leaves the requests already sent in place and adds at most
    one. *)
Lemma perform_sent {X : Type} (event : Event X) (st : State) :
  exists more, sent (fst (perform server st event)) = sent st ++ more.
Proof.
  destruct event as [key|key [value|]|keys|request|response|response];
    simpl; try (exists []; by rewrite app_nil_r).
  - by exists [request].
Qed.

Lemma run_sent {A : Type} (p : Prog A) (st : State) :
  exists more, sent (fst (run server st p)) = sent st ++ more.
Proof.
  revert st. induction p as [a|error|X event k IH]; intros st; simpl.
  - exists []. by rewrite app_nil_r.
  - exists []. by rewrite app_nil_r.
  - destruct (perform_sent event st) as [more1 H1].
    destruct (perform server st event) as [st' outcome]. simpl in H1.
    destruct (IH outcome st') as [more2 H2].
    exists (more1 ++ more2). by rewrite H2, H1, app_assoc.
Qed.

End Run.

(** ** Reading the store *)

Lemma read_item_truthy (store : gmap string string) (key value : string) :
  store !! key = Some value -> truthy_string value = true ->
  read_item store key = Some value.
Proof. intros Hkey Hvalue. unfold read_item. by rewrite Hkey, Hvalue. Qed.

Lemma read_item_falsy (store : gmap string string) (key : string) :
  truthy (store !! key) = false -> read_item store key = None.
Proof.
  unfold read_item, truthy. destruct (store !! key) as [value|]; [|done].
  by intros ->.
Qed.

Lemma read_item_Some (store : gmap string string) (key value : string) :
  read_item store key = Some value ->
  store !! key = Some value /\ truthy_string value = true.
Proof.
  unfold read_item. destruct (store !! key) as [v|]; [|done].
  destruct (truthy_string v) eqn:Hv; [|done]. by intros [= <-].
Qed.

(** ** The client, run alone *)

(** Symbolic execution of a run, one await at a time. *)
Ltac run_step :=
  first [ rewrite run_bind | rewrite run_try_catch
        | rewrite run_await | rewrite run_lift ];
  cbn [perform].

Section Client.

Variable baseURL : string.
Variable urlencode : string -> string.
Variable server : Server.

Let handleTokenExpiration := ApiClient.handleTokenExpiration baseURL.
Let handleResponse := ApiClient.handleResponse baseURL.
Let refresh_request := ApiClient.refresh_request baseURL.
Let call := ApiClient.call baseURL urlencode.

Lemma getAuthHeaders_run (st : State) :
  exists hs,
    run server st ApiClient.getAuthHeaders = (st, inr hs) /\
    hs !! "Authorization" = bearer (storage st !! "access_token").
Proof.
  unfold ApiClient.getAuthHeaders. repeat run_step. unfold read_item.
  destruct (storage st !! "access_token") as [t|]; simpl;
    [destruct (truthy_string t) eqn:Ht|]; simpl; rewrite ?Ht;
    eexists; split; reflexivity.
Qed.

(** Without a usable refresh token the handler does nothing. *)
Lemma handleTokenExpiration_idle (st : State) :
  truthy (storage st !! "refresh_token") = false ->
  run server st handleTokenExpiration = (st, inr tt).
Proof.
  intros Hnone. unfold handleTokenExpiration, ApiClient.handleTokenExpiration.
  repeat run_step. by rewrite (read_item_falsy _ _ Hnone).
Qed.

(** A failed refresh removes the credentials. *)
Lemma handleTokenExpiration_failure (st : State) (rt : string) :
  storage st !! "refresh_token" = Some rt ->
  truthy_string rt = true ->
  refresh_fails (server (sent st) (refresh_request rt)) ->
  run server st handleTokenExpiration
  = (signed_out st (refresh_request rt), inr tt).
Proof.
  intros Hrt Htruthy Hfails.
  unfold handleTokenExpiration, ApiClient.handleTokenExpiration.
  repeat run_step. rewrite (read_item_truthy _ _ _ Hrt Htruthy), Htruthy.
  repeat run_step.
  fold refresh_request.
  destruct (server (sent st) (refresh_request rt)) as [error|response].
  - by run_step.
  - destruct Hfails as [Hok | [msg Hbody]].
    + rewrite Hok. by run_step.
    + destruct (ok response); [|by run_step].
      repeat run_step. rewrite Hbody. by run_step.
Qed.

(** A successful refresh stores the new access token, and the rotated
    refresh token when there is one. *)
Lemma handleTokenExpiration_success (st : State) (rt : string)
  (response : Response) (fields : gmap string string) (access : string) :
  storage st !! "refresh_token" = Some rt ->
  truthy_string rt = true ->
  server (sent st) (refresh_request rt) = inr response ->
  ok response = true ->
  body_json response = inr (Object fields) ->
  fields !! "access_token" = Some access ->
  run server st handleTokenExpiration
  = ({| storage :=
          rotate (fields !! "refresh_token")
            (<["access_token" := access]> (storage st));
        sent := sent st ++ [refresh_request rt] |}, inr tt).
Proof.
  intros Hrt Htruthy Hserver Hok Hbody Haccess.
  unfold handleTokenExpiration, ApiClient.handleTokenExpiration.
  repeat run_step. rewrite (read_item_truthy _ _ _ Hrt Htruthy), Htruthy.
  repeat run_step.
  fold refresh_request. rewrite Hserver, Hok. repeat run_step.
  rewrite Hbody. simpl. repeat run_step. rewrite Haccess. repeat run_step.
  destruct (fields !! "refresh_token") as [r|]; simpl;
    [destruct (truthy_string r)|]; simpl; by repeat run_step.
Qed.

(** In this world the handler always returns: what it catches it handles
    by a removal that cannot fail. *)
Lemma handleTokenExpiration_returns (st : State) :
  snd (run server st handleTokenExpiration) = inr tt.
Proof.
  unfold handleTokenExpiration, ApiClient.handleTokenExpiration.
  repeat run_step.
  destruct (read_item (storage st) "refresh_token") as [rt|]; [|done].
  destruct (truthy_string rt); [|done].
  repeat run_step.
  destruct (server (sent st) _) as [error|response]; [by run_step|].
  destruct (ok response); [|by run_step].
  repeat run_step.
  destruct (body_json response) as [msg|value]; [by run_step|].
  repeat run_step.
  destruct (prop value "access_token") as [error|[access|]];
    try by repeat run_step.
  repeat run_step.
  destruct (prop value "refresh_token") as [error|rotated];
    [by repeat run_step|].
  destruct (truthy rotated) eqn:Hrotated; [|done].
  destruct rotated as [r|]; [|done]. by repeat run_step.
Qed.

Lemma handleResponse_unreadable (st : State) (response : Response)
  (error : Thrown) :
  read_body response = inl error ->
  run server st (handleResponse response) = (st, inl error).
Proof.
  unfold read_body, handleResponse, ApiClient.handleResponse.
  run_step. destruct (ApiClient.is_json (content_type response)); [|done].
  run_step. by destruct (body_json response) as [msg|value]; intros [= <-].
Qed.

Lemma handleResponse_error (st : State) (response : Response) (data : Value) :
  ok response = false ->
  read_body response = inr data ->
  data <> Null ->
  exists error,
    status error = resp_status response /\
    run server st (handleResponse response)
    = (fst (run server st
              (if resp_status response =? 401
               then handleTokenExpiration else Ret tt)),
       inl (ThrownApiError error)).
Proof.
  intros Hok Hread Hdata.
  unfold read_body in Hread.
  unfold handleResponse, ApiClient.handleResponse.
  run_step.
  assert (run server st
            (if ApiClient.is_json (content_type response)
             then await (Response_json response)
             else text <- await (Response_text response);; Ret (Str text))
          = (st, inr data)) as ->.
  { destruct (ApiClient.is_json (content_type response)).
    - run_step. by destruct (body_json response); simplify_eq.
    - repeat run_step. by simplify_eq. }
  rewrite Hok. simpl negb. cbv iota.
  assert (exists m c, prop data "message" = inr m /\ prop data "code" = inr c)
    as (m & c & -> & ->).
  { destruct data; try congruence; simpl; eauto. }
  repeat run_step. fold handleTokenExpiration.
  eexists. split; [|].
  2:{ destruct (resp_status response =? 401).
      - pose proof (handleTokenExpiration_returns st) as Hret.
        destruct (run server st handleTokenExpiration) as [st' outcome].
        simpl in Hret. subst outcome. simpl. reflexivity.
      - simpl. reflexivity. }
  reflexivity.
Qed.

Lemma handleResponse_success (st : State) (response : Response) (data : Value) :
  ok response = true ->
  read_body response = inr data ->
  data <> Null ->
  exists result,
    run server st (handleResponse response) = (st, inr result) /\
    api_status result = resp_status response.
Proof.
  intros Hok Hread Hdata.
  unfold read_body in Hread.
  unfold handleResponse, ApiClient.handleResponse.
  run_step.
  assert (run server st
            (if ApiClient.is_json (content_type response)
             then await (Response_json response)
             else text <- await (Response_text response);; Ret (Str text))
          = (st, inr data)) as ->.
  { destruct (ApiClient.is_json (content_type response)).
    - run_step. by destruct (body_json response); simplify_eq.
    - repeat run_step. by simplify_eq. }
  rewrite Hok. simpl negb. cbv iota.
  assert (exists m, prop data "message" = inr m) as (m & ->).
  { destruct data; try congruence; simpl; eauto. }
  repeat run_step. simpl. eauto.
Qed.

(** Every method sends one request, with the stored access token as its
    bearer, and hands the response to [handleResponse]. *)
Lemma call_run (c : ApiClient.Call) (st : State) :
  exists request,
    headers request !! "Authorization" = bearer (storage st !! "access_token")
    /\ run server st (call c)
       = match server (sent st) request with
         | inl error => (sending st request, inl error)
         | inr response =>
             run server (sending st request) (handleResponse response)
         end.
Proof.
  destruct (getAuthHeaders_run st) as (hs & Hheaders & Hauth).
  unfold call, handleResponse, sending.
  destruct c as [endpoint params|endpoint data|endpoint data|endpoint data
                |endpoint|endpoint form]; cbn [ApiClient.call];
    [unfold ApiClient.get | unfold ApiClient.post | unfold ApiClient.put
    | unfold ApiClient.patch | unfold ApiClient.delete
    | unfold ApiClient.upload ];
    (eexists; split;
       [|first [ rewrite run_bind, Hheaders, run_bind, run_await
               | rewrite run_bind, run_await; cbn [perform];
                 rewrite run_bind, run_await ];
         cbn [perform]; reflexivity]);
    try exact Hauth.
  simpl. unfold bearer, read_item.
  destruct (storage st !! "access_token") as [t|]; [|done].
  destruct (truthy_string t) eqn:Ht; [|done]. by rewrite Ht.
Qed.

Lemma call_first_request (c : ApiClient.Call) (st : State) (request : Request) :
  first_request server st (call c) = Some request ->
  headers request !! "Authorization" = bearer (storage st !! "access_token")
  /\ run server st (call c)
     = match server (sent st) request with
       | inl error => (sending st request, inl error)
       | inr response =>
           run server (sending st request) (handleResponse response)
       end.
Proof.
  destruct (call_run c st) as (request0 & Hauth & Hrun).
  unfold first_request. rewrite Hrun. intros Hfirst.
  assert (request = request0) as ->; [|done].
  destruct (server (sent st) request0) as [error|response].
  - simpl in Hfirst. rewrite list_lookup_middle in Hfirst by done.
    by simplify_eq.
  - destruct (run_sent server (handleResponse response) (sending st request0))
      as [more Hmore].
    rewrite Hmore in Hfirst. simpl in Hfirst.
    rewrite <- app_assoc in Hfirst. simpl in Hfirst.
    rewrite list_lookup_middle in Hfirst by done. by simplify_eq.
Qed.

Lemma call_sends (c : ApiClient.Call) (st : State) :
  is_Some (first_request server st (call c)).
Proof.
  destruct (call_run c st) as (request0 & Hauth & Hrun).
  unfold first_request. rewrite Hrun. exists request0.
  destruct (server (sent st) request0) as [error|response].
  - simpl. by rewrite list_lookup_middle.
  - destruct (run_sent server (handleResponse response) (sending st request0))
      as [more Hmore].
    rewrite Hmore. simpl. rewrite <- app_assoc. simpl.
    by rewrite list_lookup_middle.
Qed.

Lemma handleResponse_null (st : State) (response : Response) :
  read_body response = inr Null ->
  exists error,
    run server st (handleResponse response) = (st, inl error) /\
    status_of error = None.
Proof.
  intros Hread. unfold read_body in Hread.
  unfold handleResponse, ApiClient.handleResponse.
  run_step.
  assert (run server st
            (if ApiClient.is_json (content_type response)
             then await (Response_json response)
             else text <- await (Response_text response);; Ret (Str text))
          = (st, inr Null)) as ->.
  { destruct (ApiClient.is_json (content_type response)).
    - run_step. by destruct (body_json response); simplify_eq.
    - repeat run_step. by simplify_eq. }
  destruct (negb (ok response)); repeat run_step; simpl; eauto.
Qed.

(** A 401 met without a refresh token in the store changes nothing. *)
Lemma handleResponse_unauthorized_idle (st : State) (response : Response) :
  resp_status response = 401 ->
  truthy (storage st !! "refresh_token") = false ->
  fst (run server st (handleResponse response)) = st.
Proof.
  intros Hstatus Hnone.
  destruct (read_body response) as [error|data] eqn:Hread.
  - by rewrite (handleResponse_unreadable _ _ _ Hread).
  - assert (data = Null \/ data <> Null) as [->|Hdata].
    { destruct data; [by left | right; congruence ..]. }
    + by destruct (handleResponse_null st response Hread) as (error & -> & _).
    + assert (ok response = false) as Hok.
      { unfold ok. rewrite Hstatus. reflexivity. }
      destruct (handleResponse_error st response data Hok Hread Hdata)
        as (error & _ & ->).
      rewrite Hstatus. change (401 =? 401) with true. cbn [fst].
      by rewrite handleTokenExpiration_idle.
Qed.

End Client.

Lemma truthy_string_spec (s : string) : truthy_string s = true <-> s <> "".
Proof.
  unfold truthy_string. destruct (String.eqb_spec s ""); simpl; split;
    congruence.
Qed.

Lemma unauthorized_not_ok (response : Response) :
  resp_status response = 401 -> ok response = false.
Proof. intros H. unfold ok. by rewrite H. Qed.

Lemma signed_out_storage (st : State) (request : Request) (key : string) :
  key ∈ ApiClient.credentials ->
  storage (signed_out st request) !! key = None.
Proof.
  unfold signed_out, ApiClient.credentials. simpl.
  rewrite !elem_of_cons. intros [-> | [-> | [-> | H]]].
  - apply lookup_delete_eq.
  - rewrite lookup_delete_ne by done. apply lookup_delete_eq.
  - rewrite !lookup_delete_ne by done. apply lookup_delete_eq.
  - by apply elem_of_nil in H.
Qed.

Lemma rotate_access_token (rotated : option string)
  (store : gmap string string) :
  rotate rotated store !! "access_token" = store !! "access_token".
Proof.
  unfold rotate. destruct rotated as [r|]; [|done].
  destruct (truthy_string r); [|done]. by rewrite lookup_insert_ne.
Qed.

(** ** The Authorization header *)

(** C8: every call of the client (get, post, put, patch, delete, upload)
    sends a request; when the store answers an access token that request
    carries [Authorization: Bearer <accessToken>], and when it answers
    none (the key is missing, or holds the empty string, which the store
    reads as [null]) the request carries no Authorization header. *)
Theorem bearer_of_stored_token (baseURL : string)
  (urlencode : string -> string) (server : Server) (st : State)
  (c : ApiClient.Call) :
  exists request,
    first_request server st (ApiClient.call baseURL urlencode c)
    = Some request /\
    (forall token,
       read_item (storage st) "access_token" = Some token ->
       headers request !! "Authorization" = Some ("Bearer " +:+ token)) /\
    (read_item (storage st) "access_token" = None ->
     headers request !! "Authorization" = None).
Proof.
  destruct (call_sends baseURL urlencode server c st) as [request Hfirst].
  exists request. split; [done|].
  apply call_first_request in Hfirst as [Hauth _]. rewrite Hauth.
  unfold read_item, bearer.
  destruct (storage st !! "access_token") as [t|]; [|by split].
  destruct (truthy_string t); split; try done.
  by intros token [= <-].
Qed.

Lemma bearer_of_stored_token_witness :
  exists request,
    first_request (Scenario.always 200) (Scenario.stored "T1" "R1")
      (ApiClient.call Scenario.API_URL Scenario.plain
         (ApiClient.Post "/accounts" None))
    = Some request /\
    headers request !! "Authorization" = Some "Bearer T1".
Proof.
  destruct (bearer_of_stored_token Scenario.API_URL Scenario.plain
              (Scenario.always 200) (Scenario.stored "T1" "R1")
              (ApiClient.Post "/accounts" None))
    as (request & Hfirst & Hpresent & _).
  exists request. split; [exact Hfirst|].
  apply (Hpresent "T1"). reflexivity.
Defined.

(** ** Bodies that cannot be read *)

(** C7 (as amended): when a successful (2xx) response declares JSON and
    its body does not parse, the call throws the parser's [SyntaxError]
    as it is: the failure is not swallowed, but it is no classified
    error either (it has no status), and the error hook classifies it as
    a network or an unknown error, never as a server error. *)
Theorem unparsable_body_propagates (baseURL : string) (server : Server)
  (st : State) (response : Response) (msg : string) (now : Z) :
  ok response = true ->
  ApiClient.is_json (content_type response) = true ->
  body_json response = inl msg ->
  run server st (ApiClient.handleResponse baseURL response)
  = (st, inl (ThrownError "SyntaxError" msg)) /\
  status_of (ThrownError "SyntaxError" msg) = None /\
  type (handleError now (ThrownError "SyntaxError" msg)) <> SERVER.
Proof.
  intros Hok Hjson Hbody. split; [|split; [done|]].
  - apply handleResponse_unreadable. unfold read_body.
    by rewrite Hjson, Hbody.
  - unfold handleError. by destruct (isNetworkError _).
Qed.

Lemma unparsable_body_propagates_witness :
  let response :=
    {| resp_status := 200;
       content_type := Some "application/json; charset=utf-8";
       body_text := "<html>";
       body_json := inl "Unexpected token < in JSON at position 0" |} in
  let thrown :=
    ThrownError "SyntaxError" "Unexpected token < in JSON at position 0" in
  run (Scenario.always 200) (Scenario.stored "T1" "R1")
    (ApiClient.handleResponse Scenario.API_URL response)
  = (Scenario.stored "T1" "R1", inl thrown) /\
  status_of thrown = None /\
  type (handleError 0 thrown) <> SERVER.
Proof.
  apply (unparsable_body_propagates Scenario.API_URL (Scenario.always 200)
           (Scenario.stored "T1" "R1")); reflexivity.
Defined.

(** C7 (as stated) fails: a 200 response that declares JSON and carries
    HTML makes the call throw a bare [SyntaxError], which the error hook
    classifies as an unknown error, not as a server error. *)
Lemma unparsable_body_not_server_error :
  let response :=
    {| resp_status := 200;
       content_type := Some "application/json";
       body_text := "<html>";
       body_json := inl "Unexpected token < in JSON at position 0" |} in
  let outcome :=
    snd (run (Scenario.always 200) (Scenario.stored "T1" "R1")
           (ApiClient.handleResponse Scenario.API_URL response)) in
  ok response = true /\
  outcome
  = inl (ThrownError "SyntaxError" "Unexpected token < in JSON at position 0")
  /\ (forall error, outcome <> inl (ThrownApiError error)) /\
  type (handleError 0
          (ThrownError "SyntaxError"
             "Unexpected token < in JSON at position 0")) = UNKNOWN.
Proof.
  cbv zeta. split; [reflexivity|]. split; [vm_compute; reflexivity|].
  split; [|vm_compute; reflexivity].
  intros error. vm_compute. discriminate.
Qed.

(** ** A 401 without a refresh token *)

(** C10 (as amended): when a 401 response arrives and the store holds no
    refresh token, no refresh call is made and nothing is removed from
    the store (the state is left as it was); and when the body of the
    response can be read (it parses according to its content type and is
    not [null]), the error built from that 401 response, an
    authentication error, is thrown to the caller. *)
Theorem unauthorized_without_refresh_token (baseURL : string)
  (server : Server) (st : State) (response : Response) (now : Z) :
  resp_status response = 401 ->
  storage st !! "refresh_token" = None ->
  fst (run server st (ApiClient.handleResponse baseURL response)) = st /\
  (forall data,
     read_body response = inr data -> data <> Null ->
     exists error,
       snd (run server st (ApiClient.handleResponse baseURL response))
       = inl (ThrownApiError error) /\
       status error = 401 /\
       type (handleApiError now error) = AUTH).
Proof.
  intros Hstatus Hnone. split.
  - apply handleResponse_unauthorized_idle; [done|]. by rewrite Hnone.
  - intros data Hread Hdata.
    destruct (handleResponse_error baseURL server st response data)
      as (error & Herror & ->); [by apply unauthorized_not_ok | done | done |].
    exists error. split; [done|]. rewrite Herror. split; [done|].
    rewrite handleApiError_type, Herror, Hstatus. reflexivity.
Qed.

Lemma unauthorized_without_refresh_token_witness :
  let st := {| storage := {[ "access_token" := "T1" ]}; sent := [] |} in
  let response := Scenario.json_response 401 {[ "message" := "expired" ]} in
  fst (run (Scenario.always 200) st
         (ApiClient.handleResponse Scenario.API_URL response)) = st /\
  (forall data,
     read_body response = inr data -> data <> Null ->
     exists error,
       snd (run (Scenario.always 200) st
              (ApiClient.handleResponse Scenario.API_URL response))
       = inl (ThrownApiError error) /\
       status error = 401 /\
       type (handleApiError 0 error) = AUTH).
Proof.
  apply (unauthorized_without_refresh_token Scenario.API_URL
           (Scenario.always 200)); reflexivity.
Defined.

(** C10 (as stated) fails: a 401 response that declares JSON and has an
    empty body, met with no refresh token in the store, makes the call
    throw the parser's [SyntaxError]; no error with status 401 reaches
    the caller. *)
Lemma unauthorized_empty_body_throws_syntax_error :
  let st := {| storage := {[ "access_token" := "T1" ]}; sent := [] |} in
  let response :=
    {| resp_status := 401;
       content_type := Some "application/json";
       body_text := "";
       body_json := inl "Unexpected end of JSON input" |} in
  let outcome :=
    snd (run (Scenario.always 200) st
           (ApiClient.handleResponse Scenario.API_URL response)) in
  storage st !! "refresh_token" = None /\
  outcome = inl (ThrownError "SyntaxError" "Unexpected end of JSON input") /\
  (forall error, outcome <> inl (ThrownApiError error)) /\
  status_of (ThrownError "SyntaxError" "Unexpected end of JSON input") = None.
Proof.
  cbv zeta. split; [reflexivity|]. split; [vm_compute; reflexivity|].
  split; [|reflexivity].
  intros error. vm_compute. discriminate.
Qed.

(** ** A 401 with a refresh token *)








(** ** Several calls in flight *)

Lemma append_assoc (a b c : string) : (a +:+ b) +:+ c = a +:+ b +:+ c.
Proof.
  induction a as [|x a IH]; [reflexivity|].
  change (String x ((a +:+ b) +:+ c) = String x (a +:+ b +:+ c)).
  by f_equal.
Qed.

Lemma append_cancel (a b c : string) : a +:+ b = a +:+ c -> b = c.
Proof.
  induction a as [|x a IH]; [done|]. intros H.
  change (String x (a +:+ b) = String x (a +:+ c)) in H.
  injection H as H. auto.
Qed.

(** The query mark of a URL with parameters occurs in no endpoint path
    without one. *)
Fixpoint mentions (a : Ascii.ascii) (s : string) : bool :=
  match s with
  | EmptyString => false
  | String b rest => bool_decide (a = b) || mentions a rest
  end.

Lemma mentions_append (a : Ascii.ascii) (s rest : string) :
  mentions a (s +:+ String a rest) = true.
Proof.
  induction s as [|b s IH].
  - simpl. by rewrite bool_decide_eq_true_2.
  - change (mentions a (String b (s +:+ String a rest)) = true).
    simpl. rewrite IH. apply orb_true_r.
Qed.

Section Budget.

Variable baseURL : string.
Variable urlencode : string -> string.

Local Open Scope nat_scope.

Let budget {A : Type} := @refresh_budget baseURL A.

Lemma budget_mono {A : Type} (p : Prog A) (n m : nat) :
  n <= m -> budget n p -> budget m p.
Proof.
  revert n m. induction p as [a|error|X event k IH]; intros n m Hle;
    simpl; [done | done |].
  intros [Hcost Hk]. split; [lia|].
  intros outcome. eapply IH; [|apply Hk]. lia.
Qed.

Lemma budget_bind {A B : Type} (p : Prog A) (f : A -> Prog B) (n m : nat) :
  budget n p -> (forall a, budget m (f a)) -> budget (n + m) (bind p f).
Proof.
  revert n. induction p as [a|error|X event k IH]; intros n; simpl.
  - intros _ Hf. eapply budget_mono; [|apply Hf]. lia.
  - done.
  - intros [Hcost Hk] Hf. split; [lia|].
    intros outcome.
    replace (n + m - refresh_cost baseURL event)
      with (n - refresh_cost baseURL event + m) by lia.
    apply IH; [apply Hk | done].
Qed.

Lemma budget_try_catch {A : Type} (p : Prog A) (handler : Thrown -> Prog A)
  (n m : nat) :
  budget n p -> (forall error, budget m (handler error)) ->
  budget (n + m) (try_catch p handler).
Proof.
  revert n. induction p as [a|error|X event k IH]; intros n; simpl.
  - done.
  - intros _ Hf. eapply budget_mono; [|apply Hf]. lia.
  - intros [Hcost Hk] Hf. split; [lia|].
    intros outcome.
    replace (n + m - refresh_cost baseURL event)
      with (n - refresh_cost baseURL event + m) by lia.
    apply IH; [apply Hk | done].
Qed.

Lemma budget_await {X : Type} (event : Event X) :
  budget (refresh_cost baseURL event) (await event).
Proof. simpl. split; [done|]. by intros [error|x]. Qed.

Lemma budget_lift {A : Type} (r : Thrown + A) : budget 0 (lift r).
Proof. by destruct r. Qed.

Lemma budget_storage_bind {X B : Type} (event : Event X) (f : X -> Prog B)
  (n : nat) :
  refresh_cost baseURL event = 0 ->
  (forall x, budget n (f x)) -> budget n (bind (await event) f).
Proof.
  intros Hzero Hf. change n with (0 + n). apply budget_bind; [|done].
  rewrite <- Hzero. apply budget_await.
Qed.

Lemma budget_lift_bind {A B : Type} (r : Thrown + A) (f : A -> Prog B)
  (n : nat) :
  (forall a, budget n (f a)) -> budget n (bind (lift r) f).
Proof.
  intros Hf. change n with (0 + n). apply budget_bind; [|done].
  apply budget_lift.
Qed.

Lemma budget_remove : budget 0 (await (AsyncStorage_multiRemove ApiClient.credentials)).
Proof. apply (budget_await (AsyncStorage_multiRemove _)). Qed.

Lemma handleTokenExpiration_budget :
  budget 1 (ApiClient.handleTokenExpiration baseURL).
Proof.
  unfold ApiClient.handleTokenExpiration.
  change 1 with (1 + 0). apply budget_try_catch; [|intros; apply budget_remove].
  apply budget_storage_bind; [done|]. intros [rt|]; [|done].
  destruct (truthy_string rt); [|done].
  change 1 with (1 + 0). apply budget_bind.
  { eapply budget_mono; [|apply budget_await]. simpl. by case_decide. }
  intros response. destruct (ok response); [|apply budget_remove].
  apply budget_storage_bind; [done|]. intros data.
  apply budget_lift_bind. intros access.
  apply budget_storage_bind; [done|]. intros _.
  apply budget_lift_bind. intros rotated.
  destruct (truthy rotated); [|done].
  apply (budget_await (AsyncStorage_setItem _ _)).
Qed.

Lemma handleResponse_budget (response : Response) :
  budget 1 (ApiClient.handleResponse baseURL response).
Proof.
  unfold ApiClient.handleResponse.
  change 1 with (0 + 1). apply budget_bind.
  { destruct (ApiClient.is_json _).
    - apply (budget_await (Response_json _)).
    - apply budget_storage_bind; done. }
  intros data. destruct (negb (ok response)).
  - apply budget_lift_bind. intros message.
    apply budget_lift_bind. intros code.
    change 1 with (1 + 0). apply budget_bind; [|done].
    destruct (resp_status response =? 401)%Z; [|done].
    apply handleTokenExpiration_budget.
  - apply budget_lift_bind. by intros.
Qed.

Lemma getAuthHeaders_budget : budget 0 ApiClient.getAuthHeaders.
Proof.
  unfold ApiClient.getAuthHeaders.
  change 0 with (0 + 0). apply budget_try_catch; [|done].
  apply budget_storage_bind; [done|]. intros [t|]; [|done].
  by destruct (truthy_string t).
Qed.

(** A request to another endpoint than the refresh one costs nothing. *)
Lemma endpoint_cost (endpoint method : string) (hs : gmap string string)
  (b : option Body) :
  endpoint <> "/api/v1/auth/refresh"%string ->
  refresh_cost baseURL
    (fetch {| url := baseURL +:+ endpoint; method := method; headers := hs;
              body := b |}) = 0.
Proof.
  intros Hne. simpl. case_decide as Hurl; [|done].
  unfold ApiClient.refresh_url in Hurl. by apply append_cancel in Hurl.
Qed.

Lemma call_budget (c : ApiClient.Call) :
  endpoint_of c <> "/api/v1/auth/refresh"%string ->
  budget 1 (ApiClient.call baseURL urlencode c).
Proof.
  intros Hne.
  assert (forall request : Request,
            refresh_cost baseURL (fetch request) = 0 ->
            budget 1 (response <- await (fetch request);;
                      ApiClient.handleResponse baseURL response)) as Hsend.
  { intros request Hcost. apply budget_storage_bind; [done|].
    apply handleResponse_budget. }
  destruct c as [endpoint params|endpoint data|endpoint data|endpoint data
                |endpoint|endpoint form]; simpl in Hne;
    cbn [ApiClient.call];
    [unfold ApiClient.get | unfold ApiClient.post | unfold ApiClient.put
    | unfold ApiClient.patch | unfold ApiClient.delete
    | unfold ApiClient.upload ].
  - change 1 with (0 + 1). apply budget_bind; [apply getAuthHeaders_budget|].
    intros hs. apply Hsend. destruct params as [ps|].
    + simpl. case_decide as Hurl; [|done].
      unfold ApiClient.refresh_url in Hurl.
      rewrite append_assoc in Hurl. apply append_cancel in Hurl.
      pose proof (mentions_append "?"%char endpoint
                    (ApiClient.searchParams urlencode ps)) as Hmark.
      change (String "?"%char (ApiClient.searchParams urlencode ps))
        with ("?" +:+ ApiClient.searchParams urlencode ps) in Hmark.
      rewrite Hurl in Hmark. discriminate Hmark.
    + by apply endpoint_cost.
  - change 1 with (0 + 1). apply budget_bind; [apply getAuthHeaders_budget|].
    intros hs. apply Hsend. by apply endpoint_cost.
  - change 1 with (0 + 1). apply budget_bind; [apply getAuthHeaders_budget|].
    intros hs. apply Hsend. by apply endpoint_cost.
  - change 1 with (0 + 1). apply budget_bind; [apply getAuthHeaders_budget|].
    intros hs. apply Hsend. by apply endpoint_cost.
  - change 1 with (0 + 1). apply budget_bind; [apply getAuthHeaders_budget|].
    intros hs. apply Hsend. by apply endpoint_cost.
  - apply budget_storage_bind; [done|]. intros token.
    apply Hsend. by apply endpoint_cost.
Qed.

End Budget.

Section Interleaving.

Variable baseURL : string.
Variable urlencode : string -> string.
Variable server : Server.

Local Open Scope nat_scope.

Lemma perform_refresh_calls {X : Type} (event : Event X) (st : State) :
  refresh_calls baseURL (sent (fst (perform server st event)))
  = refresh_calls baseURL (sent st) + refresh_cost baseURL event.
Proof.
  destruct event as [key|key [value|]|keys|request|response|response];
    simpl; try lia.
  unfold refresh_calls. rewrite filter_app, length_app.
  f_equal. rewrite filter_cons, filter_nil. by case_decide.
Qed.

Lemma resume_budget {A : Type} (p : Prog A) (st : State) (n : nat) :
  refresh_budget baseURL n p ->
  exists n',
    refresh_budget baseURL n' (snd (resume server st p)) /\
    refresh_calls baseURL (sent (fst (resume server st p))) + n'
    = refresh_calls baseURL (sent st) + n.
Proof.
  destruct p as [a|error|X event k]; simpl.
  - intros _. by exists n.
  - intros _. by exists n.
  - intros [Hcost Hk].
    pose proof (perform_refresh_calls event st) as Hcalls.
    destruct (perform server st event) as [st' outcome]. simpl in *.
    exists (n - refresh_cost baseURL event). split; [apply Hk | lia].
Qed.

Lemma sum_list_insert (ns : list nat) (i n n' : nat) :
  ns !! i = Some n ->
  sum_list (<[i := n']> ns) + n = sum_list ns + n'.
Proof.
  revert i. induction ns as [|m ns IH]; intros [|i]; simpl; try done.
  - intros [= ->]. lia.
  - intros H. apply IH in H. lia.
Qed.

(** However the calls are interleaved, the refresh calls made stay within
    the sum of the budgets of the calls. *)
Lemma interleave_budget {A : Type} (schedule : list nat) (st : State)
  (pool : list (Prog A)) (ns : list nat) :
  Forall2 (refresh_budget baseURL) ns pool ->
  refresh_calls baseURL (sent (fst (interleave server schedule st pool)))
  <= refresh_calls baseURL (sent st) + sum_list ns.
Proof.
  revert st pool ns.
  induction schedule as [|i schedule IH]; intros st pool ns Hpool; simpl.
  - lia.
  - destruct (pool !! i) as [p|] eqn:Hp; [|by apply IH].
    destruct (Forall2_lookup_r _ _ _ _ _ Hpool Hp) as (n & Hn & Hbudget).
    destruct (resume_budget p st n Hbudget) as (n' & Hbudget' & Hcalls).
    destruct (resume server st p) as [st' p']. simpl in *.
    pose proof (sum_list_insert ns i n n' Hn) as Hsum.
    etrans; [apply (IH st' (<[i := p']> pool) (<[i := n']> ns))|lia].
    by apply Forall2_insert.
Qed.

End Interleaving.

(** C2 (as amended): the client has no single-flight coordination.  For
    [N] calls in flight, none of them aimed at the refresh endpoint
    itself, and however their awaits are interleaved, every call makes at
    most one refresh call of its own, so at most [N] refresh calls are
    made in all, and not at most one. *)
Theorem refresh_calls_at_most_one_per_call (baseURL : string)
  (urlencode : string -> string) (server : Server) (schedule : list nat)
  (st : State) (calls : list ApiClient.Call) :
  Forall (fun c => endpoint_of c <> "/api/v1/auth/refresh") calls ->
  (refresh_calls baseURL
     (sent (fst (interleave server schedule st
                   (ApiClient.call baseURL urlencode <$> calls))))
   <= refresh_calls baseURL (sent st) + length calls)%nat.
Proof.
  intros Hcalls.
  etrans; [apply (interleave_budget baseURL server schedule st _
                    (replicate (length calls) 1%nat))|].
  - induction Hcalls as [|c calls Hc Hcalls IH]; simpl.
    + constructor.
    + constructor; [by apply call_budget | done].
  - rewrite sum_list_replicate. lia.
Qed.

Lemma refresh_calls_at_most_one_per_call_witness :
  (refresh_calls Scenario.API_URL
     (sent (fst (interleave Scenario.expired_T1 [0; 1; 0; 1; 0; 1]%nat
                   (Scenario.stored "T1" "R1")
                   (ApiClient.call Scenario.API_URL Scenario.plain <$>
                      [ApiClient.Get "/accounts" None;
                       ApiClient.Delete "/accounts/7"]))))
   <= refresh_calls Scenario.API_URL (sent (Scenario.stored "T1" "R1"))
      + length [ApiClient.Get "/accounts" None;
                ApiClient.Delete "/accounts/7"])%nat.
Proof.
  apply (refresh_calls_at_most_one_per_call Scenario.API_URL Scenario.plain
           Scenario.expired_T1 [0; 1; 0; 1; 0; 1]%nat
           (Scenario.stored "T1" "R1")).
  repeat constructor; simpl; discriminate.
Defined.

(** C2 (as stated) fails: two calls in flight on a backend where the
    access token has expired, resumed in turn, both receive a 401 and both
    post to the refresh endpoint: two refresh calls are made, not at most
    one, and neither call waits for the refresh of the other. *)
Lemma two_calls_two_refreshes :
  let schedule := [0; 1; 0; 1; 0; 1; 0; 1; 0; 1; 0; 1; 0; 1]%nat in
  let final :=
    interleave Scenario.expired_T1 schedule (Scenario.stored "T1" "R1")
      [Scenario.get_accounts; Scenario.get_transactions] in
  let unauthorized :=
    inl (ThrownApiError
           {| message := "token expired"; status := 401; code := None |}) in
  settled <$> snd final = [Some unauthorized; Some unauthorized] /\
  url <$> sent (fst final)
  = ["http://localhost:8000/accounts";
     "http://localhost:8000/transactions";
     "http://localhost:8000/api/v1/auth/refresh";
     "http://localhost:8000/api/v1/auth/refresh"] /\
  refresh_calls Scenario.API_URL (sent (fst final)) = 2%nat /\
  ~ (refresh_calls Scenario.API_URL (sent (fst final)) <= 1)%nat.
Proof.
  cbv zeta. split; [vm_compute; reflexivity|].
  split; [vm_compute; reflexivity|].
  assert (refresh_calls Scenario.API_URL
            (sent (fst (interleave Scenario.expired_T1
                          [0; 1; 0; 1; 0; 1; 0; 1; 0; 1; 0; 1; 0; 1]%nat
                          (Scenario.stored "T1" "R1")
                          [Scenario.get_accounts; Scenario.get_transactions])))
          = 2%nat) as -> by (vm_compute; reflexivity).
  split; [reflexivity | lia].
Qed.

(** ** Further facts *)

(** A call resumed alone, often enough, ends as [run] says. *)
Lemma interleave_alone {A : Type} (server : Server) (p : Prog A) (st : State) :
  exists n q,
    interleave server (replicate n 0%nat) st [p]
    = (fst (run server st p), [q]) /\
    settled q = Some (snd (run server st p)).
Proof.
  revert st. induction p as [a|error|X event k IH]; intros st.
  - by exists 0%nat, (Ret a).
  - by exists 0%nat, (Throw error).
  - simpl. destruct (perform server st event) as [st' outcome] eqn:Hperform.
    destruct (IH outcome st') as (n & q & Hrun & Hq).
    exists (S n), q. simpl. by rewrite Hperform.
Qed.

(** With [ErrorHandler.shouldRetry] as the [retry] function of a query, a
    first failure with status 400 ends the query after one attempt. *)
Lemma shouldRetry_policy_bad_request {A : Type} (now : Z)
  (fn : nat -> Thrown + A) (error : ApiError) (fuel : nat) :
  fn 0%nat = inl (ThrownApiError error) ->
  status error = 400 ->
  retryer (S fuel) (shouldRetry_policy now) fn 0
  = Some (inl (ThrownApiError error), 1%nat).
Proof.
  intros Hfn Hstatus. simpl. rewrite Hfn.
  unfold handleError. rewrite Hstatus. simpl.
  by rewrite shouldRetry_api, Hstatus.
Qed.

(** With that [retry] function no query is attempted more than four
    times. *)
Lemma shouldRetry_policy_bound {A : Type} (now : Z) (fn : nat -> Thrown + A)
  (fuel : nat) (out : Thrown + A) (attempts : nat) :
  retryer fuel (shouldRetry_policy now) fn 0 = Some (out, attempts) ->
  (attempts <= 4)%nat.
Proof.
  intros Hrun. apply retryer_attempts in Hrun as (Hpos & Hbefore & _).
  destruct (decide (attempts <= 4)%nat) as [|Hmore]; [done|].
  destruct (Hbefore 3%nat) as (error & _ & Hretry); [lia | lia |].
  simpl in Hretry. unfold shouldRetry in Hretry. simpl in Hretry.
  discriminate Hretry.
Qed.

(** * Further properties of the code *)

(** ** The classifier and the retry decision *)

(** X1: an error classified from an [ApiError] is retried exactly when
    fewer than three retries were made and the status is 500 or more. *)
Theorem api_error_retried_iff_server_fault (now : Z) (error : ApiError)
  (retryCount : Z) :
  shouldRetry (handleApiError now error) retryCount = true <->
  retryCount < 3 /\ 500 <= status error.
Proof.
  rewrite shouldRetry_api, andb_true_iff, Z.ltb_lt, Z.leb_le. reflexivity.
Qed.

(** X2: a network error is retried exactly while fewer than three retries
    were made, and a generic error is never retried. *)
Theorem network_retried_generic_not (now : Z) (failure : Thrown)
  (retryCount : Z) :
  (shouldRetry (handleNetworkError now failure) retryCount = true <->
   retryCount < 3) /\
  shouldRetry (handleGenericError now failure) retryCount = false.
Proof.
  unfold shouldRetry. simpl. split.
  - destruct (Z.leb_spec 3 retryCount); split; try done; lia.
  - by destruct (3 <=? retryCount).
Qed.

Lemma or_else_nonempty (a : option string) (b : string) :
  b <> "" -> or_else a b <> "".
Proof.
  intros Hb. unfold or_else. destruct a as [s|]; [|done].
  destruct (truthy_string s) eqn:Hs; [|done].
  by apply truthy_string_spec.
Qed.

(** X3: whatever is thrown, the error the hook builds has a message to
    show: it is never the empty string. *)
Theorem handled_error_has_message (now : Z) (thrown : Thrown) :
  app_message (handleError now thrown) <> "".
Proof.
  assert (app_message (handleGenericError now thrown) <> "") as Hgeneric.
  { by apply or_else_nonempty. }
  assert (app_message (handleNetworkError now thrown) <> "") as Hnetwork.
  { done. }
  destruct thrown as [error|name msg]; simpl.
  - destruct (negb (status error =? 0)); [|by destruct (isNetworkError _)].
    unfold handleApiError.
    repeat (case_match; simplify_eq; simpl;
            try done; try (by apply or_else_nonempty);
            try (by apply truthy_string_spec)).
  - by destruct (isNetworkError _).
Qed.

(** X4: for the statuses 401, 403, 404, 429 and 500 or more the message
    shown is fixed by the status alone: what the server wrote in its own
    message is not shown. *)
Theorem server_message_not_shown (now : Z) (status : Z)
  (msg1 msg2 : string) (c1 c2 : option string) :
  status ∈ [401; 403; 404; 429] \/ 500 <= status ->
  app_message
    (handleApiError now {| message := msg1; status := status; code := c1 |})
  = app_message
      (handleApiError now {| message := msg2; status := status; code := c2 |}).
Proof.
  intros Hstatus. unfold handleApiError. simpl.
  assert (status <> 400) as Hne.
  { destruct Hstatus as [Hin | Hge]; [|lia].
    rewrite !elem_of_cons in Hin.
    destruct Hin as [-> | [-> | [-> | [-> | Hnil]]]]; try lia.
    by apply elem_of_nil in Hnil. }
  destruct (Z.eqb_spec status 400); [done|].
  destruct (Z.eqb_spec status 401); [done|].
  destruct (Z.eqb_spec status 403); [done|].
  destruct (Z.eqb_spec status 404); [done|].
  destruct (Z.eqb_spec status 429); [done|].
  destruct (Z.eqb_spec status 500); [done|].
  destruct (Z.leb_spec 500 status); [done|].
  destruct Hstatus as [Hin | Hge]; [|lia].
  rewrite !elem_of_cons in Hin.
  destruct Hin as [-> | [-> | [-> | [-> | Hnil]]]]; try done.
  by apply elem_of_nil in Hnil.
Qed.

Lemma server_message_not_shown_witness :
  app_message
    (handleApiError 0
       {| message := "locked out"; status := 403; code := Some "E17" |})
  = app_message
      (handleApiError 0 {| message := ""; status := 403; code := None |}).
Proof.
  apply (server_message_not_shown 0 403 "locked out" "" (Some "E17") None).
  left. rewrite !elem_of_cons. right. left. reflexivity.
Defined.

(** X5: on a thrown [ApiError], [isAuthError] and the classifier agree:
    it answers [true] exactly when the classifier says [AUTH]. *)
Theorem isAuthError_agrees_with_classifier (now : Z) (error : ApiError) :
  isAuthError (ThrownApiError error) = true <->
  type (handleApiError now error) = AUTH.
Proof.
  unfold isAuthError. simpl. rewrite handleApiError_type.
  destruct (Z.eqb_spec (status error) 400) as [->|]; [done|].
  destruct ((status error =? 401) || (status error =? 403)); [done|].
  split; [done|]. by repeat case_match.
Qed.

(** X6: the error the hook builds keeps what was thrown as its
    [originalError] and is stamped with the current time, on every path;
    and the status of a thrown [ApiError] decides its type before its
    message is looked at. *)
Theorem handled_error_keeps_original (now : Z) (thrown : Thrown) :
  originalError (handleError now thrown) = Some thrown /\
  timestamp (handleError now thrown) = now /\
  (forall error,
     thrown = ThrownApiError error -> status error <> 0 ->
     type (handleError now thrown) = type (handleApiError now error)).
Proof.
  destruct thrown as [error|name msg]; simpl.
  - destruct (Z.eqb_spec (status error) 0) as [Hzero|Hnonzero]; simpl.
    + split; [by destruct (isNetworkError _)|].
      split; [by destruct (isNetworkError _)|].
      by intros ? [= <-] ?.
    + rewrite handleApiError_original. split; [done|]. split.
      * unfold handleApiError. by repeat case_match.
      * by intros ? [= <-] _.
  - split; [by destruct (isNetworkError _)|].
    split; [by destruct (isNetworkError _)|].
    by intros ? [=].
Qed.

Lemma handled_error_keeps_original_witness :
  type (handleError 0
          (ThrownApiError
             {| message := "Network timeout"; status := 400; code := None |}))
  = type (handleApiError 0
            {| message := "Network timeout"; status := 400; code := None |}).
Proof.
  apply (proj2 (proj2
    (handled_error_keeps_original 0
       (ThrownApiError
          {| message := "Network timeout"; status := 400; code := None |})))).
  - reflexivity.
  - simpl. lia.
Defined.

Lemma prefix_spec (a b : string) :
  String.prefix a b = true <-> exists post, b = a +:+ post.
Proof.
  revert b. induction a as [|x a IH]; intros b.
  - split; [|by destruct b]. intros _. exists b. reflexivity.
  - destruct b as [|y b].
    + split; [done|]. intros [post Hpost].
      change ("" = String x (a +:+ post)) in Hpost. discriminate.
    + simpl. destruct (Ascii.ascii_dec x y) as [->|Hne].
      * rewrite IH. split; intros [post Hpost]; exists post.
        -- change (String y b = String y (a +:+ post)). by rewrite Hpost.
        -- change (String y b = String y (a +:+ post)) in Hpost.
           by injection Hpost.
      * split; [done|]. intros [post Hpost].
        change (String y b = String x (a +:+ post)) in Hpost.
        injection Hpost as Hxy _. congruence.
Qed.

(** [includes] is the substring test. *)
Lemma includes_spec (needle hay : string) :
  includes needle hay = true <->
  exists pre post, hay = pre +:+ needle +:+ post.
Proof.
  induction hay as [|y hay IH].
  - change (includes needle "") with (String.prefix needle "" || false).
    rewrite orb_false_r, prefix_spec. split.
    + intros [post Hpost]. by exists "", post.
    + intros (pre & post & Hhay). destruct pre as [|x pre].
      * by exists post.
      * change ("" = String x (pre +:+ needle +:+ post)) in Hhay.
        discriminate.
  - change (includes needle (String y hay))
      with (String.prefix needle (String y hay) || includes needle hay).
    rewrite orb_true_iff, prefix_spec, IH. split.
    + intros [[post Hpost] | (pre & post & Hhay)].
      * by exists "", post.
      * exists (String y pre), post.
        change (String y hay = String y (pre +:+ needle +:+ post)).
        by rewrite Hhay.
    + intros (pre & post & Hhay). destruct pre as [|x pre].
      * left. by exists post.
      * right. exists pre, post.
        change (String y hay = String x (pre +:+ needle +:+ post)) in Hhay.
        by injection Hhay.
Qed.

(** X7: a thrown value is taken for a network error exactly when its
    message contains one of the words [Network], [timeout] or
    [connection], in that spelling, anywhere in it. *)
Theorem isNetworkError_iff_message_mentions (thrown : Thrown) :
  isNetworkError thrown = true <->
  exists word pre post,
    word ∈ ["Network"; "timeout"; "connection"] /\
    message_of thrown = pre +:+ word +:+ post.
Proof.
  unfold isNetworkError. rewrite !orb_true_iff, !includes_spec. split.
  - intros [[(pre & post & H) | (pre & post & H)] | (pre & post & H)];
      eexists _, pre, post; (split; [|exact H]); set_solver.
  - intros (word & pre & post & Hword & H).
    rewrite !elem_of_cons in Hword.
    destruct Hword as [-> | [-> | [-> | Hnil]]]; [eauto | eauto | eauto |].
    by apply elem_of_nil in Hnil.
Qed.

(** ** The retry delay *)

(** X8: the retry delay of the query layer starts at one second, doubles
    with every attempt up to the fifth, is thirty seconds from then on,
    and never decreases. *)
Theorem backoff_doubles_then_caps (attemptIndex : nat) :
  1000 <= backoff attemptIndex <= 30000 /\
  ((attemptIndex <= 4)%nat ->
   backoff attemptIndex = 1000 * 2 ^ Z.of_nat attemptIndex) /\
  ((5 <= attemptIndex)%nat -> backoff attemptIndex = 30000) /\
  backoff attemptIndex <= backoff (S attemptIndex).
Proof.
  unfold backoff.
  assert (forall n : nat, 1 <= 2 ^ Z.of_nat n) as Hone.
  { intros n. apply (Z.pow_le_mono_r 2 0 (Z.of_nat n)); lia. }
  assert (2 ^ Z.of_nat attemptIndex <= 2 ^ Z.of_nat (S attemptIndex)) as Hmono.
  { apply Z.pow_le_mono_r; lia. }
  pose proof (Hone attemptIndex) as Hn.
  split; [lia|]. split; [|split; [|lia]].
  - intros Hle.
    assert (2 ^ Z.of_nat attemptIndex <= 2 ^ 4) as Hpow.
    { apply Z.pow_le_mono_r; lia. }
    change (2 ^ 4) with 16 in Hpow. lia.
  - intros Hge.
    assert (2 ^ 5 <= 2 ^ Z.of_nat attemptIndex) as Hpow.
    { apply Z.pow_le_mono_r; lia. }
    change (2 ^ 5) with 32 in Hpow. lia.
Qed.

Lemma backoff_doubles_then_caps_witness :
  backoff 3 = 1000 * 2 ^ Z.of_nat 3 /\ backoff 7 = 30000.
Proof.
  split.
  - apply (proj1 (proj2 (backoff_doubles_then_caps 3))). lia.
  - apply (proj1 (proj2 (proj2 (backoff_doubles_then_caps 7)))). lia.
Defined.

(** ** The client: what a call sends and what it leaves behind *)

(** The headers [getAuthHeaders] resolves to in a given state. *)
Definition auth_headers (st : State) : gmap string string :=
  match storage st !! "access_token" with
  | Some t =>
      if truthy_string t
      then <["Authorization" := "Bearer " +:+ t]> ApiClient.defaultHeaders
      else ApiClient.defaultHeaders
  | None => ApiClient.defaultHeaders
  end.

(** The error [handleResponse] builds from a response that is not ok. *)
Definition error_of (response : Response) (msg c : option string) : ApiError :=
  {| message :=
       or_else msg ("HTTP error! status: " +:+ pretty (resp_status response));
     status := resp_status response;
     code := c |}.

Section ClientFacts.

Variable baseURL : string.
Variable urlencode : string -> string.
Variable server : Server.

Let handleTokenExpiration := ApiClient.handleTokenExpiration baseURL.
Let handleResponse := ApiClient.handleResponse baseURL.
Let refresh_request := ApiClient.refresh_request baseURL.
Let call := ApiClient.call baseURL urlencode.

Lemma getAuthHeaders_value (st : State) :
  run server st ApiClient.getAuthHeaders = (st, inr (auth_headers st)).
Proof.
  unfold ApiClient.getAuthHeaders, auth_headers. repeat run_step.
  unfold read_item.
  destruct (storage st !! "access_token") as [t|]; [|done].
  destruct (truthy_string t) eqn:Ht; [|done]. simpl. by rewrite Ht.
Qed.

(** The handler leaves the state as it was, or sends the refresh request
    and then either removes the credentials or stores the new tokens. *)
Lemma handleTokenExpiration_effect (st : State) :
  fst (run server st handleTokenExpiration) = st \/
  exists rt,
    storage st !! "refresh_token" = Some rt /\ rt <> "" /\
    (fst (run server st handleTokenExpiration)
     = signed_out st (refresh_request rt) \/
     exists access rotated,
       fst (run server st handleTokenExpiration)
       = {| storage :=
              rotate rotated (<["access_token" := access]> (storage st));
            sent := sent st ++ [refresh_request rt] |}).
Proof.
  unfold handleTokenExpiration, ApiClient.handleTokenExpiration.
  repeat run_step.
  destruct (read_item (storage st) "refresh_token") as [rt|] eqn:Hstored;
    [|by left].
  apply read_item_Some in Hstored as [Hrt Htruthy]. rewrite Htruthy.
  right. exists rt. split; [done|].
  split; [by apply truthy_string_spec|].
  repeat run_step. fold refresh_request.
  destruct (server (sent st) (refresh_request rt)) as [error|response];
    [left; by run_step|].
  destruct (ok response); [|left; by run_step].
  repeat run_step.
  destruct (body_json response) as [msg|value]; [left; by run_step|].
  repeat run_step.
  destruct value as [| | | | |fields]; simpl;
    try (left; by repeat run_step).
  destruct (fields !! "access_token") as [access|] eqn:Haccess;
    [|left; by repeat run_step].
  right. exists access, (fields !! "refresh_token").
  repeat run_step.
  destruct (fields !! "refresh_token") as [r|]; simpl;
    [destruct (truthy_string r)|]; simpl; by repeat run_step.
Qed.

(** The exact outcome of [handleResponse] on a response that is not ok
    and whose body can be read. *)
Lemma handleResponse_throws (st : State) (response : Response) (data : Value)
  (msg c : option string) :
  ok response = false ->
  read_body response = inr data ->
  prop data "message" = inr msg ->
  prop data "code" = inr c ->
  run server st (handleResponse response)
  = (fst (run server st
            (if resp_status response =? 401
             then handleTokenExpiration else Ret tt)),
     inl (ThrownApiError (error_of response msg c))).
Proof.
  intros Hok Hread Hmsg Hcode.
  unfold read_body in Hread.
  unfold handleResponse, ApiClient.handleResponse.
  run_step.
  assert (run server st
            (if ApiClient.is_json (content_type response)
             then await (Response_json response)
             else text <- await (Response_text response);; Ret (Str text))
          = (st, inr data)) as ->.
  { destruct (ApiClient.is_json (content_type response)).
    - run_step. by destruct (body_json response); simplify_eq.
    - repeat run_step. by simplify_eq. }
  rewrite Hok. simpl negb. cbv iota. rewrite Hmsg, Hcode.
  repeat run_step. fold handleTokenExpiration. unfold error_of.
  destruct (resp_status response =? 401).
  - pose proof (handleTokenExpiration_returns baseURL server st) as Hret.
    fold handleTokenExpiration in Hret.
    destruct (run server st handleTokenExpiration) as [st' outcome].
    simpl in Hret. subst outcome. reflexivity.
  - reflexivity.
Qed.

(** The exact outcome of [handleResponse] on an ok response whose body
    can be read. *)
Lemma handleResponse_returns (st : State) (response : Response) (body : Value)
  (msg : option string) :
  ok response = true ->
  read_body response = inr body ->
  prop body "message" = inr msg ->
  run server st (handleResponse response)
  = (st, inr {| data := body; api_message := msg;
                api_status := resp_status response |}).
Proof.
  intros Hok Hread Hmsg.
  unfold read_body in Hread.
  unfold handleResponse, ApiClient.handleResponse.
  run_step.
  assert (run server st
            (if ApiClient.is_json (content_type response)
             then await (Response_json response)
             else text <- await (Response_text response);; Ret (Str text))
          = (st, inr body)) as ->.
  { destruct (ApiClient.is_json (content_type response)).
    - run_step. by destruct (body_json response); simplify_eq.
    - repeat run_step. by simplify_eq. }
  rewrite Hok. simpl negb. cbv iota. rewrite Hmsg. by repeat run_step.
Qed.

(** [handleResponse] changes the state only through the handler of a
    401. *)
Lemma handleResponse_effect (st : State) (response : Response) :
  fst (run server st (handleResponse response)) = st \/
  fst (run server st (handleResponse response))
  = fst (run server st handleTokenExpiration).
Proof.
  unfold handleResponse, handleTokenExpiration.
  destruct (read_body response) as [error|data] eqn:Hread.
  - left. by rewrite (handleResponse_unreadable _ _ _ _ _ Hread).
  - assert (data = Null \/ data <> Null) as [->|Hdata].
    { destruct data; [by left | right; congruence ..]. }
    + left.
      by destruct (handleResponse_null baseURL server st response Hread)
        as (error & -> & _).
    + destruct (ok response) eqn:Hok.
      * left.
        by destruct (handleResponse_success baseURL server st response data
                       Hok Hread Hdata) as (result & -> & _).
      * destruct (handleResponse_error baseURL server st response data
                    Hok Hread Hdata) as (error & _ & ->).
        cbn [fst]. destruct (resp_status response =? 401); [by right|by left].
Qed.

End ClientFacts.

Section Requests.

Variable server : Server.

Lemma first_request_after {A B : Type} (st : State) (p : Prog A) (a : A)
  (f : A -> Prog B) :
  run server st p = (st, inr a) ->
  first_request server st (bind p f) = first_request server st (f a).
Proof. intros Hp. unfold first_request. by rewrite run_bind, Hp. Qed.

Lemma first_request_fetch {A : Type} (st : State) (request : Request)
  (k : Response -> Prog A) :
  first_request server st (response <- await (fetch request);; k response)
  = Some request.
Proof.
  unfold first_request. rewrite run_bind, run_await. cbn [perform].
  destruct (server (sent st) request) as [error|response].
  - simpl. by rewrite list_lookup_middle.
  - destruct (run_sent server (k response)
                {| storage := storage st; sent := sent st ++ [request] |})
      as [more Hmore].
    rewrite Hmore. simpl. rewrite <- app_assoc. simpl.
    by rewrite list_lookup_middle.
Qed.

End Requests.

(** Computes the first request of a method of the client. *)
Ltac first_request_of_call :=
  cbn [ApiClient.call];
  unfold ApiClient.get, ApiClient.post, ApiClient.put, ApiClient.patch,
    ApiClient.delete, ApiClient.upload;
  first
    [ erewrite first_request_after by apply getAuthHeaders_value
    | erewrite first_request_after
        by (rewrite run_await; cbn [perform]; reflexivity) ];
  rewrite first_request_fetch.

Lemma auth_headers_base (st : State) :
  auth_headers st !! "Content-Type" = Some "application/json" /\
  auth_headers st !! "Accept" = Some "application/json".
Proof.
  unfold auth_headers.
  destruct (storage st !! "access_token") as [t|]; [|done].
  destruct (truthy_string t); [|done].
  by rewrite !lookup_insert_ne.
Qed.

(** On a store that never fails [run_on] is [run]. *)
Lemma run_on_reliable {A : Type} (server : Server) (st : State) (p : Prog A) :
  run_on (fun _ _ => None) server st p = run server st p.
Proof.
  revert st. induction p as [a|error|X event k IH]; intros st; simpl;
    [done | done |].
  assert (perform_on (fun _ _ => None) server st event
          = perform server st event) as ->.
  { unfold perform_on. by destruct (is_storage_call event). }
  destruct (perform server st event) as [st' outcome]. apply IH.
Qed.

(** X9: [getAuthHeaders] always resolves, also when the store fails: it
    never throws, sends nothing, leaves the store as it is, and the
    headers it gives always carry the JSON content type and accept
    headers; when the read of the access token rejects, its [catch]
    answers the default headers, without an Authorization header. *)
Theorem getAuthHeaders_always_resolves (faults : Faults) (server : Server)
  (st : State) :
  exists hs,
    run_on faults server st ApiClient.getAuthHeaders = (st, inr hs) /\
    hs !! "Content-Type" = Some "application/json" /\
    hs !! "Accept" = Some "application/json" /\
    (forall error,
       faults _ (AsyncStorage_getItem "access_token") = Some error ->
       hs = ApiClient.defaultHeaders /\ hs !! "Authorization" = None).
Proof.
  unfold ApiClient.getAuthHeaders. simpl. unfold perform_on. simpl.
  destruct (faults _ (AsyncStorage_getItem "access_token")) as [error|].
  - simpl. exists ApiClient.defaultHeaders. by repeat split.
  - simpl. destruct (read_item (storage st) "access_token") as [t|]; simpl.
    + destruct (truthy_string t); simpl; eexists;
        (split; [reflexivity|]); rewrite ?lookup_insert_ne by done;
        by repeat split.
    + eexists. split; [reflexivity|]. by repeat split.
Qed.

Lemma getAuthHeaders_always_resolves_witness :
  exists hs,
    run_on (fun _ _ => Some (ThrownError "Error" "storage unavailable"))
      (Scenario.always 200) (Scenario.stored "T1" "R1")
      ApiClient.getAuthHeaders
    = (Scenario.stored "T1" "R1", inr hs) /\
    hs = ApiClient.defaultHeaders /\ hs !! "Authorization" = None.
Proof.
  destruct (getAuthHeaders_always_resolves
              (fun _ _ => Some (ThrownError "Error" "storage unavailable"))
              (Scenario.always 200) (Scenario.stored "T1" "R1"))
    as (hs & Hrun & _ & _ & Hcatch).
  exists hs. split; [exact Hrun|].
  apply (Hcatch (ThrownError "Error" "storage unavailable")). reflexivity.
Defined.

Lemma credentials_frame (store : gmap string string) (key : string) :
  key ∉ ApiClient.credentials ->
  foldr delete store ApiClient.credentials !! key = store !! key.
Proof.
  unfold ApiClient.credentials. rewrite !not_elem_of_cons.
  intros (H1 & H2 & H3 & _). simpl. by rewrite !lookup_delete_ne.
Qed.

Lemma rotate_frame (rotated : option string) (store : gmap string string)
  (key : string) :
  key <> "refresh_token" -> rotate rotated store !! key = store !! key.
Proof.
  intros Hkey. unfold rotate. destruct rotated as [r|]; [|done].
  destruct (truthy_string r); [|done]. by rewrite lookup_insert_ne.
Qed.

(** The state a call leaves behind. *)
Lemma call_effect (baseURL : string) (urlencode : string -> string)
  (server : Server) (c : ApiClient.Call) (st : State) :
  exists request,
    let st' := fst (run server st (ApiClient.call baseURL urlencode c)) in
    st' = sending st request \/
    exists rt,
      storage st !! "refresh_token" = Some rt /\ rt <> "" /\
      (st' = signed_out (sending st request)
               (ApiClient.refresh_request baseURL rt) \/
       exists access rotated,
         st' = {| storage :=
                    rotate rotated (<["access_token" := access]> (storage st));
                  sent := (sent st ++ [request]) ++
                          [ApiClient.refresh_request baseURL rt] |}).
Proof.
  destruct (call_run baseURL urlencode server c st) as (request & _ & Hrun).
  exists request. cbv zeta. rewrite Hrun.
  destruct (server (sent st) request) as [error|response]; [by left|].
  destruct (handleResponse_effect baseURL server (sending st request) response)
    as [-> | ->]; [by left|].
  destruct (handleTokenExpiration_effect baseURL server (sending st request))
    as [-> | (rt & Hrt & Htruthy & Heffect)]; [by left|].
  right. exists rt. split; [done|]. split; [done|].
  destruct Heffect as [-> | (access & rotated & ->)]; [by left|].
  right. by exists access, rotated.
Qed.

(** The request of a call that names another endpoint than the refresh
    one goes to another URL than the refresh request. *)
Lemma call_request_url (baseURL : string) (urlencode : string -> string)
  (server : Server) (c : ApiClient.Call) (st : State) (request : Request) :
  endpoint_of c <> "/api/v1/auth/refresh" ->
  first_request server st (ApiClient.call baseURL urlencode c)
  = Some request ->
  url request <> ApiClient.refresh_url baseURL.
Proof.
  intros Hne.
  destruct c as [endpoint [ps|]|endpoint data|endpoint data|endpoint data
                |endpoint|endpoint form]; simpl in Hne;
    first_request_of_call; intros [= <-]; cbn [url];
    unfold ApiClient.refresh_url; intros Hurl.
  2-7: by apply append_cancel in Hurl.
  rewrite append_assoc in Hurl. apply append_cancel in Hurl.
  pose proof (mentions_append "?"%char endpoint
                (ApiClient.searchParams urlencode ps)) as Hmark.
  change (String "?"%char (ApiClient.searchParams urlencode ps))
    with ("?" +:+ ApiClient.searchParams urlencode ps) in Hmark.
  rewrite Hurl in Hmark. discriminate Hmark.
Qed.

(** X10: a call that is not aimed at the refresh endpoint itself sends
    its own request exactly once and, besides it, at most one more
    request: the refresh request built from the stored refresh token,
    which goes to another URL and so is not the request of the call.  It
    sends nothing else. *)
Theorem call_sends_once_and_at_most_a_refresh (baseURL : string)
  (urlencode : string -> string) (server : Server) (c : ApiClient.Call)
  (st : State) :
  endpoint_of c <> "/api/v1/auth/refresh" ->
  exists request,
    first_request server st (ApiClient.call baseURL urlencode c)
    = Some request /\
    (forall rt, request <> ApiClient.refresh_request baseURL rt) /\
    let log := sent (fst (run server st (ApiClient.call baseURL urlencode c))) in
    log = sent st ++ [request] \/
    exists rt,
      storage st !! "refresh_token" = Some rt /\ rt <> "" /\
      log = sent st ++ [request; ApiClient.refresh_request baseURL rt].
Proof.
  intros Hendpoint.
  destruct (call_effect baseURL urlencode server c st) as (request & Heffect).
  cbv zeta in *.
  assert (sent (fst (run server st (ApiClient.call baseURL urlencode c)))
          = sent st ++ [request] \/
          exists rt,
            storage st !! "refresh_token" = Some rt /\ rt <> "" /\
            sent (fst (run server st (ApiClient.call baseURL urlencode c)))
            = sent st ++ [request; ApiClient.refresh_request baseURL rt])
    as Hlog.
  { destruct Heffect as [-> | (rt & Hrt & Htruthy & Heffect)]; [by left|].
    right. exists rt. split; [done|]. split; [done|].
    destruct Heffect as [-> | (access & rotated & ->)]; simpl;
      by rewrite <- app_assoc. }
  assert (first_request server st (ApiClient.call baseURL urlencode c)
          = Some request) as Hfirst.
  { unfold first_request.
    destruct Hlog as [-> | (rt & _ & _ & ->)]; by rewrite list_lookup_middle. }
  exists request. split; [exact Hfirst|]. split; [|exact Hlog].
  intros rt ->.
  by apply (call_request_url baseURL urlencode server c st _ Hendpoint Hfirst).
Qed.

Lemma call_sends_once_and_at_most_a_refresh_witness :
  exists request,
    first_request Scenario.expired_T1 (Scenario.stored "T1" "R1")
      (ApiClient.call Scenario.API_URL Scenario.plain
         (ApiClient.Get "/accounts" None))
    = Some request /\
    (forall rt, request <> ApiClient.refresh_request Scenario.API_URL rt) /\
    let log :=
      sent (fst (run Scenario.expired_T1 (Scenario.stored "T1" "R1")
                   (ApiClient.call Scenario.API_URL Scenario.plain
                      (ApiClient.Get "/accounts" None)))) in
    log = sent (Scenario.stored "T1" "R1") ++ [request] \/
    exists rt,
      storage (Scenario.stored "T1" "R1") !! "refresh_token" = Some rt /\
      rt <> "" /\
      log = sent (Scenario.stored "T1" "R1") ++
            [request; ApiClient.refresh_request Scenario.API_URL rt].
Proof.
  apply (call_sends_once_and_at_most_a_refresh Scenario.API_URL Scenario.plain
           Scenario.expired_T1 (ApiClient.Get "/accounts" None)
           (Scenario.stored "T1" "R1")).
  simpl. discriminate.
Defined.

(** X11: a call changes nothing in the store but the keys
    [access_token], [refresh_token] and [user]: every other key keeps its
    value, whatever the backend answers. *)
Theorem call_keeps_other_keys (baseURL : string)
  (urlencode : string -> string) (server : Server) (c : ApiClient.Call)
  (st : State) (key : string) :
  key ∉ ApiClient.credentials ->
  storage (fst (run server st (ApiClient.call baseURL urlencode c))) !! key
  = storage st !! key.
Proof.
  intros Hkey.
  destruct (call_effect baseURL urlencode server c st) as (request & Heffect).
  cbv zeta in Heffect.
  destruct Heffect as [-> | (rt & _ & _ & [-> | (access & rotated & ->)])].
  - done.
  - by apply credentials_frame.
  - simpl. unfold ApiClient.credentials in Hkey.
    rewrite !not_elem_of_cons in Hkey. destruct Hkey as (H1 & H2 & _).
    rewrite rotate_frame by done. by rewrite lookup_insert_ne.
Qed.

Lemma call_keeps_other_keys_witness :
  storage
    (fst (run Scenario.expired_T1
            {| storage :=
                 {[ "access_token" := "T1"; "refresh_token" := "R1";
                    "theme" := "dark" ]};
               sent := [] |}
            (ApiClient.call Scenario.API_URL Scenario.plain
               (ApiClient.Get "/accounts" None)))) !! "theme"
  = storage
      {| storage :=
           {[ "access_token" := "T1"; "refresh_token" := "R1";
              "theme" := "dark" ]};
         sent := [] |} !! "theme".
Proof.
  apply (call_keeps_other_keys Scenario.API_URL Scenario.plain
           Scenario.expired_T1 (ApiClient.Get "/accounts" None)).
  unfold ApiClient.credentials. rewrite !not_elem_of_cons.
  repeat split; try discriminate. apply not_elem_of_nil.
Defined.

(** X12: when the request of a call is answered with a 2xx status and a
    body that can be read, the call returns that body as [data], its
    [message] field and the status, and leaves the store untouched: the
    only trace of it is the request sent. *)
Theorem successful_call_returns_body (baseURL : string)
  (urlencode : string -> string) (server : Server) (st : State)
  (c : ApiClient.Call) (request : Request) (response : Response)
  (body : Value) (msg : option string) :
  first_request server st (ApiClient.call baseURL urlencode c)
  = Some request ->
  server (sent st) request = inr response ->
  ok response = true ->
  read_body response = inr body ->
  prop body "message" = inr msg ->
  run server st (ApiClient.call baseURL urlencode c)
  = (sending st request,
     inr {| data := body; api_message := msg;
            api_status := resp_status response |}).
Proof.
  intros Hfirst Hserver Hok Hread Hmsg.
  apply call_first_request in Hfirst as [_ ->]. rewrite Hserver.
  by apply handleResponse_returns.
Qed.

Lemma successful_call_returns_body_witness :
  run (Scenario.always 200) (Scenario.stored "T1" "R1")
    (ApiClient.call Scenario.API_URL Scenario.plain
       (ApiClient.Get "/accounts" None))
  = (sending (Scenario.stored "T1" "R1") (Scenario.accounts_request "T1"),
     inr {| data := Object ∅; api_message := None; api_status := 200 |}).
Proof.
  apply (successful_call_returns_body Scenario.API_URL Scenario.plain
           (Scenario.always 200) (Scenario.stored "T1" "R1")
           (ApiClient.Get "/accounts" None) (Scenario.accounts_request "T1")
           (Scenario.json_response 200 ∅) (Object ∅) None).
  - vm_compute. reflexivity.
  - reflexivity.
  - reflexivity.
  - reflexivity.
  - reflexivity.
Defined.

(** X13: when the request of a call is answered with a status outside
    200-299 and a body that can be read, the call throws an [ApiError]
    with that status, with the [code] of the body, and with the [message]
    of the body when it has a non-empty one and [HTTP error! status: N]
    otherwise, whatever a refresh does; and when the status is not 401
    (403 included) no refresh is made and the store is untouched. *)
Theorem failed_call_throws_api_error (baseURL : string)
  (urlencode : string -> string) (server : Server) (st : State)
  (c : ApiClient.Call) (request : Request) (response : Response)
  (body : Value) (msg code : option string) :
  first_request server st (ApiClient.call baseURL urlencode c)
  = Some request ->
  server (sent st) request = inr response ->
  ok response = false ->
  read_body response = inr body ->
  prop body "message" = inr msg ->
  prop body "code" = inr code ->
  snd (run server st (ApiClient.call baseURL urlencode c))
  = inl (ThrownApiError
           {| message :=
                or_else msg
                  ("HTTP error! status: " +:+ pretty (resp_status response));
              status := resp_status response;
              code := code |}) /\
  (resp_status response <> 401 ->
   fst (run server st (ApiClient.call baseURL urlencode c))
   = sending st request).
Proof.
  intros Hfirst Hserver Hok Hread Hmsg Hcode.
  apply call_first_request in Hfirst as [_ ->]. rewrite Hserver.
  rewrite (handleResponse_throws baseURL server (sending st request)
             response body msg code Hok Hread Hmsg Hcode).
  split; [done|]. intros Hstatus. cbn [fst].
  by destruct (Z.eqb_spec (resp_status response) 401).
Qed.

Lemma failed_call_throws_api_error_witness :
  snd (run (Scenario.always 403) (Scenario.stored "T1" "R1")
         (ApiClient.call Scenario.API_URL Scenario.plain
            (ApiClient.Get "/accounts" None)))
  = inl (ThrownApiError
           {| message := or_else None ("HTTP error! status: " +:+ pretty 403);
              status := 403;
              code := None |}) /\
  (403 <> 401 ->
   fst (run (Scenario.always 403) (Scenario.stored "T1" "R1")
          (ApiClient.call Scenario.API_URL Scenario.plain
             (ApiClient.Get "/accounts" None)))
   = sending (Scenario.stored "T1" "R1") (Scenario.accounts_request "T1")).
Proof.
  apply (failed_call_throws_api_error Scenario.API_URL Scenario.plain
           (Scenario.always 403) (Scenario.stored "T1" "R1")
           (ApiClient.Get "/accounts" None) (Scenario.accounts_request "T1")
           (Scenario.json_response 403 ∅) (Object ∅) None None).
  - vm_compute. reflexivity.
  - reflexivity.
  - reflexivity.
  - reflexivity.
  - reflexivity.
  - reflexivity.
Defined.

(** X14: a response whose JSON body is [null] makes [handleResponse]
    throw a [TypeError], whatever the status: a 200 does not return, and
    a 401 neither refreshes the token nor reaches the caller as an
    [ApiError]; the state stays as it was. *)
Theorem null_body_throws_type_error (baseURL : string) (server : Server)
  (st : State) (response : Response) :
  ApiClient.is_json (content_type response) = true ->
  body_json response = inr Null ->
  exists msg,
    run server st (ApiClient.handleResponse baseURL response)
    = (st, inl (ThrownError "TypeError" msg)).
Proof.
  intros Hjson Hbody. unfold ApiClient.handleResponse.
  rewrite Hjson. repeat run_step. rewrite Hbody.
  destruct (negb (ok response)); repeat run_step; simpl; eauto.
Qed.

Lemma null_body_throws_type_error_witness :
  exists msg,
    run (Scenario.always 200) (Scenario.stored "T1" "R1")
      (ApiClient.handleResponse Scenario.API_URL
         {| resp_status := 200; content_type := Some "application/json";
            body_text := "null"; body_json := inr Null |})
    = (Scenario.stored "T1" "R1", inl (ThrownError "TypeError" msg)).
Proof.
  apply (null_body_throws_type_error Scenario.API_URL (Scenario.always 200)
           (Scenario.stored "T1" "R1")); reflexivity.
Defined.

(** X15: after a successful refresh the store holds the new access token;
    the refresh token is replaced when the answer carries a non-empty
    one and is kept otherwise; every other key, [user] included, keeps
    its value. *)
Theorem refresh_rotates_tokens (baseURL : string) (server : Server)
  (st : State) (rt : string) (response : Response)
  (fields : gmap string string) (access : string) :
  storage st !! "refresh_token" = Some rt ->
  rt <> "" ->
  server (sent st) (ApiClient.refresh_request baseURL rt) = inr response ->
  ok response = true ->
  body_json response = inr (Object fields) ->
  fields !! "access_token" = Some access ->
  let st' := fst (run server st (ApiClient.handleTokenExpiration baseURL)) in
  storage st' !! "access_token" = Some access /\
  storage st' !! "refresh_token"
  = Some (if truthy (fields !! "refresh_token")
          then default "" (fields !! "refresh_token") else rt) /\
  (forall key,
     key <> "access_token" -> key <> "refresh_token" ->
     storage st' !! key = storage st !! key).
Proof.
  intros Hrt Htruthy Hserver Hok Hbody Haccess. cbv zeta.
  rewrite (handleTokenExpiration_success baseURL server st rt response fields
             access); [|done | by apply truthy_string_spec | done..].
  cbn [fst storage]. split; [|split].
  - rewrite rotate_access_token. apply lookup_insert_eq.
  - unfold rotate, truthy.
    destruct (fields !! "refresh_token") as [r|]; simpl.
    + destruct (truthy_string r).
      * apply lookup_insert_eq.
      * by rewrite lookup_insert_ne.
    + by rewrite lookup_insert_ne.
  - intros key Haccess' Hrefresh.
    rewrite rotate_frame by done. by rewrite lookup_insert_ne.
Qed.

Lemma refresh_rotates_tokens_witness :
  let st' :=
    fst (run (fun _ _ =>
                inr (Scenario.json_response 200
                       {[ "access_token" := "T2"; "refresh_token" := "R2" ]}))
           (Scenario.stored "T1" "R1")
           (ApiClient.handleTokenExpiration Scenario.API_URL)) in
  storage st' !! "access_token" = Some "T2" /\
  storage st' !! "refresh_token"
  = Some (if truthy
               (({[ "access_token" := "T2"; "refresh_token" := "R2" ]}
                 : gmap string string) !! "refresh_token")
          then default ""
                 (({[ "access_token" := "T2"; "refresh_token" := "R2" ]}
                   : gmap string string) !! "refresh_token")
          else "R1") /\
  (forall key,
     key <> "access_token" -> key <> "refresh_token" ->
     storage st' !! key = storage (Scenario.stored "T1" "R1") !! key).
Proof.
  apply (refresh_rotates_tokens Scenario.API_URL _
           (Scenario.stored "T1" "R1") "R1"
           (Scenario.json_response 200
              {[ "access_token" := "T2"; "refresh_token" := "R2" ]})
           {[ "access_token" := "T2"; "refresh_token" := "R2" ]} "T2").
  - reflexivity.
  - discriminate.
  - reflexivity.
  - reflexivity.
  - reflexivity.
  - reflexivity.
Defined.

Lemma searchParams_defined (urlencode : string -> string)
  (ps : list (string * option string)) :
  ApiClient.searchParams urlencode ps
  = ApiClient.searchParams urlencode (filter (fun p => is_Some p.2) ps).
Proof.
  unfold ApiClient.searchParams. f_equal.
  induction ps as [|[key [v|]] ps IH].
  - done.
  - rewrite filter_cons_True by (simpl; eauto). simpl. f_equal. exact IH.
  - rewrite filter_cons_False by (simpl; by intros [? ?]). simpl. exact IH.
Qed.

Lemma searchParams_undefined (urlencode : string -> string)
  (ps : list (string * option string)) :
  Forall (fun p => p.2 = None) ps -> ApiClient.searchParams urlencode ps = "".
Proof.
  intros Hall. unfold ApiClient.searchParams.
  induction Hall as [|[key v] ps Hv Hall IH]; [done|].
  simpl in Hv. subst v. exact IH.
Qed.

(** X16: the parameters of a [get] whose value is [undefined] or [null]
    leave no trace in the URL; and when parameters are given but none of
    them has a value, the URL still ends with a question mark, unlike the
    URL of a [get] without parameters. *)
Theorem get_skips_undefined_params (baseURL : string)
  (urlencode : string -> string) (server : Server) (st : State)
  (endpoint : string) (params : list (string * option string)) :
  exists request,
    first_request server st
      (ApiClient.call baseURL urlencode (ApiClient.Get endpoint (Some params)))
    = Some request /\
    first_request server st
      (ApiClient.call baseURL urlencode
         (ApiClient.Get endpoint
            (Some (filter (fun p => is_Some p.2) params))))
    = Some request /\
    (Forall (fun p => p.2 = None) params ->
     url request = (baseURL +:+ endpoint) +:+ "?") /\
    exists bare,
      first_request server st
        (ApiClient.call baseURL urlencode (ApiClient.Get endpoint None))
      = Some bare /\
      url bare = baseURL +:+ endpoint.
Proof.
  eexists. split; [by first_request_of_call|].
  split; [|split].
  - first_request_of_call. by rewrite <- searchParams_defined.
  - intros Hall. simpl. by rewrite searchParams_undefined.
  - eexists. split; [by first_request_of_call | done].
Qed.

Lemma get_skips_undefined_params_witness :
  exists request,
    first_request (Scenario.always 200) (Scenario.stored "T1" "R1")
      (ApiClient.call Scenario.API_URL Scenario.plain
         (ApiClient.Get "/transactions" (Some [("limit", None)])))
    = Some request /\
    url request = (Scenario.API_URL +:+ "/transactions") +:+ "?".
Proof.
  destruct (get_skips_undefined_params Scenario.API_URL Scenario.plain
              (Scenario.always 200) (Scenario.stored "T1" "R1")
              "/transactions" [("limit", None)])
    as (request & Hfirst & _ & Hbare & _).
  exists request. split; [exact Hfirst|].
  apply Hbare. repeat constructor.
Defined.

Lemma truthy_value_false (d : Value) :
  truthy_value d = false <-> d ∈ [Null; Bool false; Number 0; Str ""].
Proof.
  rewrite !elem_of_cons, elem_of_nil.
  destruct d as [|b|z|s| |fields]; simpl.
  - intuition congruence.
  - destruct b; intuition congruence.
  - destruct (Z.eqb_spec z 0); simpl; intuition congruence.
  - unfold truthy_string.
    destruct (String.eqb_spec s ""); simpl; intuition congruence.
  - intuition congruence.
  - intuition congruence.
Qed.

(** X17: [post], [put] and [patch] send no body when no data is given
    and when the data is [null], [false], [0] or the empty string; data
    that is [true], a non-zero integer, a non-empty string, an array or
    an object is sent as its JSON text. *)
Theorem falsy_data_sent_without_body (baseURL : string)
  (urlencode : string -> string) (server : Server) (st : State)
  (endpoint : string) (data : option Value) (c : ApiClient.Call) :
  c ∈ [ApiClient.Post endpoint data; ApiClient.Put endpoint data;
       ApiClient.Patch endpoint data] ->
  exists request,
    first_request server st (ApiClient.call baseURL urlencode c)
    = Some request /\
    (data = None \/
     (exists d, data = Some d /\ d ∈ [Null; Bool false; Number 0; Str ""]) ->
     body request = None) /\
    (forall d,
       data = Some d ->
       d = Bool true \/ (exists z, z <> 0 /\ d = Number z) \/
       (exists s, s <> "" /\ d = Str s) \/ d = Array \/
       (exists fields, d = Object fields) ->
       body request = Some (JSON_stringify d)).
Proof.
  rewrite !elem_of_cons, elem_of_nil.
  assert ((data = None \/
           (exists d, data = Some d /\
                      d ∈ [Null; Bool false; Number 0; Str ""]) ->
           ApiClient.stringify_if_truthy data = None) /\
          (forall d,
             data = Some d ->
             d = Bool true \/ (exists z, z <> 0 /\ d = Number z) \/
             (exists s, s <> "" /\ d = Str s) \/ d = Array \/
             (exists fields, d = Object fields) ->
             ApiClient.stringify_if_truthy data = Some (JSON_stringify d)))
    as Hbody.
  { unfold ApiClient.stringify_if_truthy. split.
    - intros [-> | (d & -> & Hin)]; [done|].
      apply truthy_value_false in Hin. by rewrite Hin.
    - intros d -> [-> | [(z & Hz & ->) | [(s0 & Hs & ->) | [-> | [fields ->]]]]];
        simpl; try done.
      + by destruct (Z.eqb_spec z 0).
      + apply truthy_string_spec in Hs. by rewrite Hs. }
  intros [-> | [-> | [-> | []]]];
    (eexists; split; [by first_request_of_call | exact Hbody]).
Qed.

Lemma falsy_data_sent_without_body_witness :
  exists request,
    first_request (Scenario.always 200) (Scenario.stored "T1" "R1")
      (ApiClient.call Scenario.API_URL Scenario.plain
         (ApiClient.Put "/budgets/3" (Some (Number 0))))
    = Some request /\
    body request = None.
Proof.
  destruct (falsy_data_sent_without_body Scenario.API_URL Scenario.plain
              (Scenario.always 200) (Scenario.stored "T1" "R1")
              "/budgets/3" (Some (Number 0))
              (ApiClient.Put "/budgets/3" (Some (Number 0))))
    as (request & Hfirst & Hnone & _).
  - rewrite !elem_of_cons. right. left. reflexivity.
  - exists request. split; [exact Hfirst|].
    apply Hnone. right. exists (Number 0). split; [reflexivity|].
    rewrite !elem_of_cons. right. right. left. reflexivity.
Defined.

(** X18: [upload] is the one method that sends no [Content-Type] header
    (it is left to [fetch] to set the one of the form); every other
    method sends [Content-Type: application/json]; all of them send
    [Accept: application/json]. *)
Theorem only_upload_omits_content_type (baseURL : string)
  (urlencode : string -> string) (server : Server) (st : State)
  (c : ApiClient.Call) :
  exists request,
    first_request server st (ApiClient.call baseURL urlencode c)
    = Some request /\
    headers request !! "Accept" = Some "application/json" /\
    (headers request !! "Content-Type" = None <->
     exists endpoint formData, c = ApiClient.Upload endpoint formData) /\
    (headers request !! "Content-Type" = None \/
     headers request !! "Content-Type" = Some "application/json").
Proof.
  pose proof (auth_headers_base st) as [Hcontent Haccept].
  destruct c as [endpoint params|endpoint data|endpoint data|endpoint data
                |endpoint|endpoint form];
    (eexists; split; [by first_request_of_call|]); simpl.
  1-5: split; [done|]; rewrite Hcontent;
       split; [|by right]; split; [done | by intros (? & ? & ?)].
  assert (forall hs : gmap string string,
            hs = match read_item (storage st) "access_token" with
                 | Some t =>
                     if truthy_string t
                     then <["Authorization" := "Bearer " +:+ t]>
                            {[ "Accept" := "application/json" ]}
                     else {[ "Accept" := "application/json" ]}
                 | None => {[ "Accept" := "application/json" ]}
                 end ->
            hs !! "Accept" = Some "application/json" /\
            hs !! "Content-Type" = None) as Hupload.
  { intros hs ->.
    destruct (read_item (storage st) "access_token") as [t|]; [|done].
    destruct (truthy_string t); [|done]. by rewrite !lookup_insert_ne. }
  destruct (Hupload _ eq_refl) as [Ha Hc].
  split; [exact Ha|]. rewrite Hc. split; [|by left].
  split; [eauto | done].
Qed.

(** X19: once a refresh has succeeded with a non-empty access token,
    every call made next sends its request with that new token as its
    bearer. *)
Theorem call_after_refresh_uses_new_token (baseURL : string)
  (urlencode : string -> string) (server : Server) (st : State)
  (rt : string) (response : Response) (fields : gmap string string)
  (access : string) (c : ApiClient.Call) :
  storage st !! "refresh_token" = Some rt ->
  rt <> "" ->
  server (sent st) (ApiClient.refresh_request baseURL rt) = inr response ->
  ok response = true ->
  body_json response = inr (Object fields) ->
  fields !! "access_token" = Some access ->
  access <> "" ->
  exists request,
    first_request server
      (fst (run server st (ApiClient.handleTokenExpiration baseURL)))
      (ApiClient.call baseURL urlencode c)
    = Some request /\
    headers request !! "Authorization" = Some ("Bearer " +:+ access).
Proof.
  intros Hrt Htruthy Hserver Hok Hbody Haccess Hnonempty.
  rewrite (handleTokenExpiration_success baseURL server st rt response fields
             access); [|done | by apply truthy_string_spec | done..].
  cbn [fst].
  destruct (call_sends baseURL urlencode server c
              {| storage :=
                   rotate (fields !! "refresh_token")
                     (<["access_token" := access]> (storage st));
                 sent := sent st ++ [ApiClient.refresh_request baseURL rt] |})
    as [request Hfirst].
  exists request. split; [exact Hfirst|].
  apply call_first_request in Hfirst as [-> _]. cbn [storage].
  rewrite rotate_access_token, lookup_insert_eq. simpl.
  apply truthy_string_spec in Hnonempty. by rewrite Hnonempty.
Qed.

Lemma call_after_refresh_uses_new_token_witness :
  exists request,
    first_request Scenario.expired_T1
      (fst (run Scenario.expired_T1 (Scenario.stored "T1" "R1")
              (ApiClient.handleTokenExpiration Scenario.API_URL)))
      (ApiClient.call Scenario.API_URL Scenario.plain
         (ApiClient.Delete "/accounts/7"))
    = Some request /\
    headers request !! "Authorization" = Some ("Bearer " +:+ "T2").
Proof.
  apply (call_after_refresh_uses_new_token Scenario.API_URL Scenario.plain
           Scenario.expired_T1 (Scenario.stored "T1" "R1") "R1"
           (Scenario.json_response 200 {[ "access_token" := "T2" ]})
           {[ "access_token" := "T2" ]} "T2").
  - reflexivity.
  - discriminate.
  - vm_compute. reflexivity.
  - reflexivity.
  - reflexivity.
  - reflexivity.
  - discriminate.
Defined.

(** X20: once a refresh has failed, every call made next goes out without
    an Authorization header. *)
Theorem call_after_failed_refresh_is_anonymous (baseURL : string)
  (urlencode : string -> string) (server : Server) (st : State)
  (rt : string) (c : ApiClient.Call) :
  storage st !! "refresh_token" = Some rt ->
  rt <> "" ->
  refresh_fails (server (sent st) (ApiClient.refresh_request baseURL rt)) ->
  exists request,
    first_request server
      (fst (run server st (ApiClient.handleTokenExpiration baseURL)))
      (ApiClient.call baseURL urlencode c)
    = Some request /\
    headers request !! "Authorization" = None.
Proof.
  intros Hrt Htruthy Hfails.
  rewrite (handleTokenExpiration_failure baseURL server st rt);
    [|done | by apply truthy_string_spec | done].
  cbn [fst].
  destruct (call_sends baseURL urlencode server c
              (signed_out st (ApiClient.refresh_request baseURL rt)))
    as [request Hfirst].
  exists request. split; [exact Hfirst|].
  apply call_first_request in Hfirst as [-> _].
  by rewrite signed_out_storage by set_solver.
Qed.

Lemma call_after_failed_refresh_is_anonymous_witness :
  exists request,
    first_request (Scenario.always 401)
      (fst (run (Scenario.always 401) (Scenario.stored "T1" "R1")
              (ApiClient.handleTokenExpiration Scenario.API_URL)))
      (ApiClient.call Scenario.API_URL Scenario.plain
         (ApiClient.Get "/accounts" None))
    = Some request /\
    headers request !! "Authorization" = None.
Proof.
  apply (call_after_failed_refresh_is_anonymous Scenario.API_URL
           Scenario.plain (Scenario.always 401) (Scenario.stored "T1" "R1")
           "R1").
  - reflexivity.
  - discriminate.
  - simpl. left. reflexivity.
Defined.

(** ** The analytics service *)

Section Analytics.

Variable baseURL : string.
Variable urlencode : string -> string.
Variable server : Server.

(** The pattern of every method of the service: the outcome of the
    [get], with a thrown error replaced by the literal. *)
Lemma swallowing_get {F : Type} (endpoint : string) (literal : F)
  (st : State) :
  run server st
    (try_catch
       (response <- ApiClient.get baseURL urlencode endpoint None;;
        Ret (Data (data response)))
       (fun _ => Ret (Fallback literal)))
  = (fst (run server st (ApiClient.get baseURL urlencode endpoint None)),
     inr match snd (run server st
                      (ApiClient.get baseURL urlencode endpoint None)) with
         | inr response => Data (data response)
         | inl _ => Fallback literal
         end).
Proof.
  rewrite run_try_catch, run_bind.
  by destruct (run server st (ApiClient.get baseURL urlencode endpoint None))
    as [st' [error|response]].
Qed.

End Analytics.

(** X21: [getAnalytics] never throws.  It has the effects of the [get] it
    makes, returns the [data] of the response when that [get] returns,
    and returns the all-zero analytics with empty lists when that [get]
    throws, whatever the reason. *)
Theorem getAnalytics_never_throws (baseURL : string)
  (urlencode : string -> string) (server : Server) (st : State)
  (timeframe : string) :
  let fetched :=
    run server st
      (ApiClient.get baseURL urlencode
         ("/api/v1/transactions/analysis?timeframe=" +:+ timeframe) None) in
  exists result,
    run server st (AnalyticsService.getAnalytics baseURL urlencode timeframe)
    = (fst fetched, inr result) /\
    (forall response,
       snd fetched = inr response -> result = Data (data response)) /\
    (forall error,
       snd fetched = inl error ->
       result = Fallback (mkAnalyticsData 0 0 0 0 0 [] [])).
Proof.
  cbv zeta. unfold AnalyticsService.getAnalytics.
  rewrite swallowing_get. eexists. split; [reflexivity|].
  split.
  - by intros response ->.
  - by intros error ->.
Qed.

Lemma getAnalytics_never_throws_witness :
  snd (run (Scenario.always 500) (Scenario.stored "T1" "R1")
         (AnalyticsService.getAnalytics Scenario.API_URL Scenario.plain
            "month"))
  = inr (Fallback (mkAnalyticsData 0 0 0 0 0 [] [])).
Proof.
  destruct (getAnalytics_never_throws Scenario.API_URL Scenario.plain
              (Scenario.always 500) (Scenario.stored "T1" "R1") "month")
    as (result & Hrun & _ & Hfallback).
  rewrite Hrun. cbn [snd]. f_equal.
  eapply Hfallback. vm_compute. reflexivity.
Defined.

(** X22: the list methods of the service ([getSpendingTrends],
    [getNetWorthHistory], [getCategoryBreakdown], [getBudgetPerformance],
    [getGoalProgress]) never throw: each has the effects of the [get] on
    its endpoint, returns the [data] of the response when that [get]
    returns, and returns the empty list when that [get] throws. *)
Theorem analytics_lists_never_throw (baseURL : string)
  (urlencode : string -> string) (server : Server) (st : State)
  (arg : string) (method : Prog (Fetched (list Value))) (endpoint : string) :
  (method, endpoint) ∈
    [(AnalyticsService.getSpendingTrends baseURL urlencode arg,
      "/api/v1/transactions/spending-trends?period=" +:+ arg);
     (AnalyticsService.getNetWorthHistory baseURL urlencode arg,
      "/api/v1/accounts/net-worth-history?period=" +:+ arg);
     (AnalyticsService.getCategoryBreakdown baseURL urlencode arg,
      "/api/v1/transactions/category-breakdown?timeframe=" +:+ arg);
     (AnalyticsService.getBudgetPerformance baseURL urlencode,
      "/api/v1/budgets/performance");
     (AnalyticsService.getGoalProgress baseURL urlencode,
      "/api/v1/goals/progress")] ->
  let fetched :=
    run server st (ApiClient.get baseURL urlencode endpoint None) in
  run server st method
  = (fst fetched,
     inr match snd fetched with
         | inr response => Data (data response)
         | inl _ => Fallback []
         end).
Proof.
  rewrite !elem_of_cons, elem_of_nil. cbv zeta.
  intros [[= -> ->] | [[= -> ->] | [[= -> ->] | [[= -> ->] | [[= -> ->] | []]]]]];
    apply swallowing_get.
Qed.

Lemma analytics_lists_never_throw_witness :
  run (Scenario.always 404) (Scenario.stored "T1" "R1")
    (AnalyticsService.getGoalProgress Scenario.API_URL Scenario.plain)
  = (fst (run (Scenario.always 404) (Scenario.stored "T1" "R1")
            (ApiClient.get Scenario.API_URL Scenario.plain
               "/api/v1/goals/progress" None)),
     inr match snd (run (Scenario.always 404) (Scenario.stored "T1" "R1")
                      (ApiClient.get Scenario.API_URL Scenario.plain
                         "/api/v1/goals/progress" None)) with
         | inr response => Data (data response)
         | inl _ => Fallback []
         end).
Proof.
  apply (analytics_lists_never_throw Scenario.API_URL Scenario.plain
           (Scenario.always 404) (Scenario.stored "T1" "R1") "").
  rewrite !elem_of_cons. do 4 right. left. reflexivity.
Defined.

(** [getAnalytics] always returns. *)
Lemma getAnalytics_never_throws_run (baseURL : string)
  (urlencode : string -> string) (server : Server) (st : State)
  (timeframe : string) :
  exists result,
    snd (run server st
           (AnalyticsService.getAnalytics baseURL urlencode timeframe))
    = inr result.
Proof.
  unfold AnalyticsService.getAnalytics. rewrite swallowing_get.
  cbn [snd]. eauto.
Qed.

(** X23: as the query function of [useAnalytics], [getAnalytics] is
    invoked once per fetch and never retried, whatever the [retry] option
    (the hook sets [retry: 3]) and whatever the backend does: the query
    never fails, it yields the zero analytics instead. *)
Theorem analytics_query_never_retried (baseURL : string)
  (urlencode : string -> string) (server : Server) (st : State)
  (timeframe : string) (r : RetryValue) (fuel : nat) :
  let fn :=
    replay server st
      (AnalyticsService.getAnalytics baseURL urlencode timeframe) in
  exists result,
    retryer (S fuel) r fn 0 = Some (inr result, 1%nat).
Proof.
  cbv zeta. cbn [retryer replay].
  destruct (getAnalytics_never_throws_run baseURL urlencode server st timeframe)
    as [result ->].
  by exists result.
Qed.

(** ** The application state listener *)

(** X24: the listener invalidates the queries exactly when the application
    was inactive or in the background and becomes active; it always
    records the new state; and after a change that invalidated, the very
    next change never invalidates again. *)
Theorem invalidation_only_on_return_to_foreground
  (appState nextAppState : string) :
  snd (handleAppStateChange appState nextAppState) = nextAppState /\
  (fst (handleAppStateChange appState nextAppState) = true <->
   nextAppState = "active" /\
   exists word pre post,
     word ∈ ["inactive"; "background"] /\
     appState = pre +:+ word +:+ post) /\
  (fst (handleAppStateChange appState nextAppState) = true ->
   forall later,
     fst (handleAppStateChange
            (snd (handleAppStateChange appState nextAppState)) later)
     = false).
Proof.
  unfold handleAppStateChange, matches_inactive_or_background. cbn [fst snd].
  split; [done|]. split.
  - rewrite andb_true_iff, orb_true_iff, !includes_spec.
    destruct (String.eqb_spec nextAppState "active") as [->|Hne].
    + split.
      * intros [[(pre & post & H) | (pre & post & H)] _];
          (split; [done|]); eexists _, pre, post;
          (split; [|exact H]); set_solver.
      * intros (_ & word & pre & post & Hword & H). split; [|done].
        rewrite !elem_of_cons, elem_of_nil in Hword.
        destruct Hword as [-> | [-> | []]]; eauto.
    + split; [by intros [_ ?] | by intros [? _]].
  - rewrite andb_true_iff. intros [_ Hactive] later.
    apply String.eqb_eq in Hactive as ->. reflexivity.
Qed.

Lemma invalidation_only_on_return_to_foreground_witness :
  fst (handleAppStateChange
         (snd (handleAppStateChange "background" "active")) "active")
  = false.
Proof.
  apply (proj2 (proj2
    (invalidation_only_on_return_to_foreground "background" "active"))).
  reflexivity.
Defined.

(** ** The client under the retry loop *)

(** The outcome of a call whose request meets a 401 and whose refresh
    succeeds. *)
Lemma call_refreshed (baseURL : string) (urlencode : string -> string)
  (server : Server) (st : State) (c : ApiClient.Call) (request : Request)
  (response : Response) (body : Value) (rt : string) (refreshed : Response)
  (fields : gmap string string) (access : string) :
  first_request server st (ApiClient.call baseURL urlencode c)
  = Some request ->
  server (sent st) request = inr response ->
  resp_status response = 401 ->
  read_body response = inr body ->
  body <> Null ->
  storage st !! "refresh_token" = Some rt ->
  rt <> "" ->
  server (sent st ++ [request]) (ApiClient.refresh_request baseURL rt)
  = inr refreshed ->
  ok refreshed = true ->
  body_json refreshed = inr (Object fields) ->
  fields !! "access_token" = Some access ->
  exists error,
    run server st (ApiClient.call baseURL urlencode c)
    = ({| storage :=
            rotate (fields !! "refresh_token")
              (<["access_token" := access]> (storage st));
          sent := (sent st ++ [request]) ++
                  [ApiClient.refresh_request baseURL rt] |},
       inl (ThrownApiError error)).
Proof.
  intros Hfirst Hserver Hstatus Hread Hbody Hrt Htruthy Hrefresh Hok Hjson
    Haccess.
  apply call_first_request in Hfirst as [_ ->]. rewrite Hserver.
  destruct (handleResponse_error baseURL server (sending st request)
              response body) as (error & _ & ->);
    [by apply unauthorized_not_ok | done | done |].
  rewrite Hstatus. change (401 =? 401) with true. cbv iota.
  rewrite (handleTokenExpiration_success baseURL server (sending st request)
             rt refreshed fields access);
    [|done | by apply truthy_string_spec | done..].
  by exists error.
Qed.

(** X25: a query or mutation allowed at least one retry recovers from an
    expired access token: when its first attempt meets a 401, the refresh
    succeeds and the backend accepts the request sent next, the retry
    loop ends after exactly two attempts with the response of the
    second. *)
Theorem retry_recovers_from_expired_token (baseURL : string)
  (urlencode : string -> string) (server : Server) (st : State)
  (c : ApiClient.Call) (request : Request) (response : Response)
  (body : Value) (rt : string) (refreshed : Response)
  (fields : gmap string string) (access : string)
  (request2 : Request) (response2 : Response) (body2 : Value)
  (msg2 : option string) (n fuel : nat) :
  first_request server st (ApiClient.call baseURL urlencode c)
  = Some request ->
  server (sent st) request = inr response ->
  resp_status response = 401 ->
  read_body response = inr body ->
  body <> Null ->
  storage st !! "refresh_token" = Some rt ->
  rt <> "" ->
  server (sent st ++ [request]) (ApiClient.refresh_request baseURL rt)
  = inr refreshed ->
  ok refreshed = true ->
  body_json refreshed = inr (Object fields) ->
  fields !! "access_token" = Some access ->
  first_request server
    (fst (run server st (ApiClient.call baseURL urlencode c)))
    (ApiClient.call baseURL urlencode c)
  = Some request2 ->
  server
    (sent st ++ [request; ApiClient.refresh_request baseURL rt]) request2
  = inr response2 ->
  ok response2 = true ->
  read_body response2 = inr body2 ->
  prop body2 "message" = inr msg2 ->
  retryer (2 + fuel) (RetryNumber (S n))
    (replay server st (ApiClient.call baseURL urlencode c)) 0
  = Some (inr {| data := body2; api_message := msg2;
                 api_status := resp_status response2 |}, 2%nat).
Proof.
  intros Hfirst Hserver Hstatus Hread Hbody Hrt Htruthy Hrefresh Hok Hjson
    Haccess Hfirst2 Hserver2 Hok2 Hread2 Hmsg2.
  destruct (call_refreshed baseURL urlencode server st c request response
              body rt refreshed fields access) as [error Hrun]; try done.
  rewrite Hrun in Hfirst2. cbn [fst] in Hfirst2.
  apply call_first_request in Hfirst2 as [_ Hrun2].
  replace (sent st ++ [request; ApiClient.refresh_request baseURL rt])
    with ((sent st ++ [request]) ++ [ApiClient.refresh_request baseURL rt])
    in Hserver2 by (by rewrite <- app_assoc).
  cbn [sent] in Hrun2. rewrite Hserver2 in Hrun2.
  rewrite (handleResponse_returns baseURL server _ response2 body2 msg2
             Hok2 Hread2 Hmsg2) in Hrun2.
  change (2 + fuel)%nat with (S (S fuel)).
  cbn [retryer replay]. rewrite Hrun. cbn [fst snd retries].
  change (0 <? S n)%nat with true. cbv iota.
  by rewrite Hrun2.
Qed.

Lemma retry_recovers_from_expired_token_witness :
  retryer (2 + 0) (RetryNumber 1)
    (replay Scenario.expired_T1 (Scenario.stored "T1" "R1")
       (ApiClient.call Scenario.API_URL Scenario.plain
          (ApiClient.Get "/accounts" None))) 0
  = Some (inr {| data := Object {[ "message" := "accounts" ]};
                 api_message := Some "accounts";
                 api_status := 200 |}, 2%nat).
Proof.
  apply (retry_recovers_from_expired_token Scenario.API_URL Scenario.plain
           Scenario.expired_T1 (Scenario.stored "T1" "R1")
           (ApiClient.Get "/accounts" None)
           (Scenario.accounts_request "T1")
           (Scenario.json_response 401 {[ "message" := "token expired" ]})
           (Object {[ "message" := "token expired" ]}) "R1"
           (Scenario.json_response 200 {[ "access_token" := "T2" ]})
           {[ "access_token" := "T2" ]} "T2"
           (Scenario.accounts_request "T2")
           (Scenario.json_response 200 {[ "message" := "accounts" ]})
           (Object {[ "message" := "accounts" ]}) (Some "accounts") 0 0).
  - vm_compute. reflexivity.
  - vm_compute. reflexivity.
  - reflexivity.
  - reflexivity.
  - discriminate.
  - reflexivity.
  - discriminate.
  - vm_compute. reflexivity.
  - reflexivity.
  - reflexivity.
  - reflexivity.
  - vm_compute. reflexivity.
  - vm_compute. reflexivity.
  - reflexivity.
  - reflexivity.
  - reflexivity.
Defined.
